(** * The log ETL DAG: transform and load stages

    Shallow embedding of [dags/gcs_log_extract_dag.py].  The two task
    callables [transform_logs] and [load_to_bigquery] are written as
    functions over a column-major data frame; every pandas call of the
    source is one definition here, in source order.  Exceptions are values
    of [exn] carried by [result]; the Airflow task context (object store,
    XCom, warehouse client) is an explicit [world] record.

    Two parts of the libraries are kept behind interfaces and never
    unfolded: binary64 arithmetic with its text form ([Float64]) and the
    date-time parser and renderer ([DateTime]). *)

From Stdlib Require Import ZArith String Ascii DecimalString DecimalZ.
From stdpp Require Import base option list strings gmap.

Local Open Scope string_scope.
Local Open Scope list_scope.
Local Open Scope Z_scope.

(** ** Exceptions and results *)

(** The exceptions the two callables can raise, with what their message
    carries.  [MissingRequiredColumns] and [NoTransformedData] are the two
    [ValueError]s the source raises itself; the others come from pandas. *)
Inductive exn : Type :=
| MissingRequiredColumns (found : list string)
| NoTransformedData
| KeyError (label : string)
| NotOneColumn (label : string)
| DateParseError (text : string)
| DatetimeTypeError
| IntCastingNaNError
| InvalidLiteral (text : string)
| ParserError.

Inductive result (A : Type) : Type :=
| Ok (a : A)
| Raise (e : exn).
Arguments Ok {A} a.
Arguments Raise {A} e.

Global Instance result_bind : MBind result := λ A B k r,
  match r with
  | Ok a => k a
  | Raise e => Raise e
  end.

(** [mapM_result f l]: apply [f] left to right, stop at the first raise. *)
Fixpoint mapM_result {A B : Type} (f : A → result B) (l : list A)
  : result (list B) :=
  match l with
  | [] => Ok []
  | a :: l' => b ← f a; bs ← mapM_result f l'; Ok (b :: bs)
  end.

Definition is_ok {A : Type} (r : result A) : bool :=
  match r with Ok _ => true | Raise _ => false end.

(** The column label an exception message names, if any. *)
Definition exn_column (e : exn) : option string :=
  match e with
  | KeyError l | NotOneColumn l => Some l
  | _ => None
  end.

(** The offending cell text an exception message quotes, if any. *)
Definition exn_value (e : exn) : option string :=
  match e with
  | DateParseError t | InvalidLiteral t => Some t
  | _ => None
  end.

(** ** Text *)

(** [str.isspace] on one-byte characters. *)
Definition is_space (c : ascii) : bool :=
  let n := nat_of_ascii c in
  ((9 <=? n)%nat && (n <=? 13)%nat) || ((28 <=? n)%nat && (n <=? 32)%nat).

Fixpoint lstrip (s : string) : string :=
  match s with
  | EmptyString => EmptyString
  | String c s' => if is_space c then lstrip s' else s
  end.

Fixpoint rstrip (s : string) : string :=
  match s with
  | EmptyString => EmptyString
  | String c s' =>
      match rstrip s' with
      | EmptyString => if is_space c then EmptyString else String c EmptyString
      | r => String c r
      end
  end.

(** No leading white space. *)
Definition no_lead (s : string) : Prop :=
  match s with
  | EmptyString => True
  | String a _ => is_space a = false
  end.

(** [str.strip()] *)
Definition strip (s : string) : string := rstrip (lstrip s).

Definition lower_char (c : ascii) : ascii :=
  let n := nat_of_ascii c in
  if ((65 <=? n)%nat && (n <=? 90)%nat) then ascii_of_nat (n + 32) else c.

(** [str.lower()] *)
Fixpoint lower (s : string) : string :=
  match s with
  | EmptyString => EmptyString
  | String c s' => String (lower_char c) (lower s')
  end.

(** The text contains a full stop. *)
Fixpoint has_dot (s : string) : bool :=
  match s with
  | EmptyString => false
  | String c s' => bool_decide (c = "."%char) || has_dot s'
  end.

(** Decimal text of an integer, and the integer a decimal text denotes. *)
Definition Z_repr (z : Z) : string := NilZero.string_of_int (Z.to_int z).

Definition parse_int (s : string) : option Z :=
  Z.of_int <$> NilZero.int_of_string s.

(** ** Calendar values *)

Record date : Type := Date { year : Z; month : Z; day : Z }.

Record Timestamp : Type :=
  Tstamp { ts_date : date; ts_hour : Z; ts_minute : Z; ts_second : Z;
           ts_nanosecond : Z }.

Definition midnight (d : date) : Timestamp := Tstamp d 0 0 0 0.

Global Instance date_eq_dec : EqDecision date.
Proof. solve_decision. Defined.
Global Instance Timestamp_eq_dec : EqDecision Timestamp.
Proof. solve_decision. Defined.

(** ** Library interfaces *)

(** binary64 without its NaN (a missing cell is [VNaN] below). *)
Class Float64 : Type := {
  float : Type;
  float_eq_dec :: EqDecision float;
  float_of_Z : Z → float;
  float_div : float → float → float;
  (** truncation toward zero; [None] on an infinity *)
  float_to_Z : float → option Z;
  (** Python's [repr], which [to_csv] and [str] use *)
  float_repr : float → string;
  (** the CSV reader's number parser on a field that is not an integer *)
  float_parse : string → option float;
}.

Class DateTime : Type := {
  (** [pd.to_datetime] on one text *)
  parse_datetime : string → option Timestamp;
  (** [pd.to_datetime] on one integer, nanoseconds since the epoch *)
  epoch_datetime : Z → Timestamp;
  (** text of an instant and of a date in [to_csv] *)
  format_datetime : Timestamp → string;
  format_date : date → string;
}.

(** ** Data frames *)

Section Pipeline.
Context {F : Float64} {D : DateTime}.

(** One cell.  [VNaN] is the missing number or missing object, [VNaT] the
    missing instant. *)
Inductive value : Type :=
| VStr (s : string)
| VInt (z : Z)
| VFloat (f : float)
| VBool (b : bool)
| VNaN
| VTime (t : Timestamp)
| VNaT
| VDate (d : date).

Global Instance value_eq_dec : EqDecision value.
Proof. solve_decision. Defined.

Abbreviation column := (list value).

(** A frame is its columns in order, each with its label; labels may
    repeat. *)
Abbreviation DataFrame := (list (string * column)).

(** [df.columns.tolist()] *)
Definition columns (df : DataFrame) : list string := df.*1.

(** [len(df)] *)
Definition nrows (df : DataFrame) : nat :=
  match df with
  | [] => 0%nat
  | (_, c) :: _ => length c
  end.

(** Every column labelled [l], in frame order. *)
Definition cols_named (l : string) (df : DataFrame) : list column :=
  (filter (λ lc, lc.1 = l) df).*2.

(** [df[l]] read as one column: a label that is absent raises [KeyError];
    a repeated label selects a frame and the column operation applied to it
    raises. *)
Definition getitem (df : DataFrame) (l : string) : result column :=
  match cols_named l df with
  | [] => Raise (KeyError l)
  | [c] => Ok c
  | _ => Raise (NotOneColumn l)
  end.

(** [df[l] = c]: every column labelled [l] is replaced; a new label is
    appended. *)
Definition setitem (df : DataFrame) (l : string) (c : column) : DataFrame :=
  if bool_decide (l ∈ columns df)
  then fmap (λ lc, if bool_decide (lc.1 = l) then (l, c) else lc) df
  else df ++ [(l, c)].

Definition isna (v : value) : bool :=
  match v with
  | VNaN | VNaT => true
  | _ => false
  end.

(** A column of integers with gaps: [int64] when nothing is missing,
    [float64] with NaN otherwise. *)
Definition numeric_column (l : list (option Z)) : column :=
  if forallb (λ o, bool_decide (is_Some o)) l
  then (λ o, VInt (default 0 o)) <$> l
  else (λ o, from_option (λ z, VFloat (float_of_Z z)) VNaN o) <$> l.

(** ** Lines 55-60: schema normalisation and validation *)

(** [df.columns = df.columns.str.strip().str.lower()] *)
Definition normalize (df : DataFrame) : DataFrame :=
  prod_map (λ l, lower (strip l)) id <$> df.

Definition required_columns : list string :=
  ["timestamp"; "log_level"; "service"; "message"; "user_id"].

(** [required_columns.issubset(df.columns)], else [ValueError] *)
Definition validate (df : DataFrame) : result DataFrame :=
  if forallb (λ r, bool_decide (r ∈ columns df)) required_columns
  then Ok df
  else Raise (MissingRequiredColumns (columns df)).

(** ** Lines 63-75: feature engineering *)

(** [pd.to_datetime] on one cell *)
Definition to_datetime1 (v : value) : result value :=
  match v with
  | VStr s =>
      match parse_datetime s with
      | Some t => Ok (VTime t)
      | None => Raise (DateParseError s)
      end
  | VInt z => Ok (VTime (epoch_datetime z))
  | VFloat f =>
      match float_to_Z f with
      | Some z => Ok (VTime (epoch_datetime z))
      | None => Raise (DateParseError (float_repr f))
      end
  | VBool _ => Raise DatetimeTypeError
  | VNaN | VNaT => Ok VNaT
  | VTime t => Ok (VTime t)
  | VDate d => Ok (VTime (midnight d))
  end.

Definition to_datetime (c : column) : result column :=
  mapM_result to_datetime1 c.

(** [.dt.date] *)
Definition dt_date (c : column) : column :=
  (λ v, match v with VTime t => VDate (ts_date t) | _ => VNaT end) <$> c.

(** [.dt.hour] *)
Definition dt_hour (c : column) : column :=
  numeric_column
    ((λ v, match v with VTime t => Some (ts_hour t) | _ => None end) <$> c).

(** [(df["log_level"] == "ERROR").astype(int)] *)
Definition is_error_of (c : column) : column :=
  (λ v, VInt (if bool_decide (v = VStr "ERROR") then 1 else 0)) <$> c.

Definition log_level_map : gmap string Z :=
  {[ "INFO" := 0; "WARN" := 1; "ERROR" := 2 ]}.

(** [log_level_map.get(v)]: only a text can be a key of the dict. *)
Definition log_level_lookup (v : value) : option Z :=
  match v with
  | VStr s => log_level_map !! s
  | _ => None
  end.

(** [df["log_level"].map(log_level_map)] *)
Definition map_log_level (c : column) : column :=
  numeric_column (log_level_lookup <$> c).

(** Python's [str] of a cell *)
Definition str_value (v : value) : string :=
  match v with
  | VStr s => s
  | VInt z => Z_repr z
  | VFloat f => float_repr f
  | VBool b => if b then "True" else "False"
  | VNaN => "nan"
  | VTime t => format_datetime t
  | VNaT => "NaT"
  | VDate d => format_date d
  end.

(** [df["message"].astype(str).apply(len)] *)
Definition message_length_of (c : column) : column :=
  (λ v, VInt (Z.of_nat (String.length (str_value v)))) <$> c.

(** The integer a cell of an integer column holds. *)
Definition int_of_value (v : value) : Z :=
  match v with
  | VInt z => z
  | VBool b => if b then 1 else 0
  | _ => 0
  end.

Definition sum_ints (c : column) : Z := foldr (λ v acc, int_of_value v + acc) 0 c.

(** [.mean()] of a group of an integer column *)
Definition mean (c : column) : float :=
  float_div (float_of_Z (sum_ints c)) (float_of_Z (Z.of_nat (length c))).

(** The cells of [vals] on the rows whose key is [k]. *)
Definition group_values (keys vals : column) (k : value) : column :=
  (filter (λ kv, kv.1 = k) (zip keys vals)).*2.

(** The group keys: the distinct values of the key column, missing keys
    dropped. *)
Definition group_keys (keys : column) : list value :=
  remove_dups (filter (λ k, isna k = false) keys).

(** [df.groupby(by)[col].mean()] as the series key ↦ mean *)
Definition groupby_mean (keys vals : column) : list (value * float) :=
  (λ k, (k, mean (group_values keys vals k))) <$> group_keys keys.

(** [c.map(series)]: a cell that is no key of the series maps to NaN. *)
Definition map_series (series : list (value * float)) (c : column) : column :=
  (λ v, match list_find (λ kf, kf.1 = v) series with
        | Some (_, (_, f)) => VFloat f
        | None => VNaN
        end) <$> c.

Definition engineer (df : DataFrame) : result DataFrame :=
  ts ← getitem df "timestamp";
  ts ← to_datetime ts;
  let df := setitem df "timestamp" ts in
  ts ← getitem df "timestamp";
  let df := setitem df "event_date" (dt_date ts) in
  ts ← getitem df "timestamp";
  let df := setitem df "hour_of_day" (dt_hour ts) in
  lv ← getitem df "log_level";
  let df := setitem df "is_error" (is_error_of lv) in
  lv ← getitem df "log_level";
  let df := setitem df "log_level_encoded" (map_log_level lv) in
  msg ← getitem df "message";
  let df := setitem df "message_length" (message_length_of msg) in
  svc ← getitem df "service";
  err ← getitem df "is_error";
  let service_error_rate := groupby_mean svc err in
  svc ← getitem df "service";
  Ok (setitem df "service_error_rate" (map_series service_error_rate svc)).

(** The frame [engineer] returns, from the columns it read. *)
Definition engineered (df : DataFrame) (ts lv msg svc : column) : DataFrame :=
  let df := setitem df "timestamp" ts in
  let df := setitem df "event_date" (dt_date ts) in
  let df := setitem df "hour_of_day" (dt_hour ts) in
  let df := setitem df "is_error" (is_error_of lv) in
  let df := setitem df "log_level_encoded" (map_log_level lv) in
  let df := setitem df "message_length" (message_length_of msg) in
  setitem df "service_error_rate"
    (map_series (groupby_mean svc (is_error_of lv)) svc).

(** The labels [engineer] assigns after [timestamp], in source order. *)
Definition derived_columns : list string :=
  ["event_date"; "hour_of_day"; "is_error"; "log_level_encoded";
   "message_length"; "service_error_rate"].

(** Every column of the frame has [n] rows. *)
Definition rectangular (df : DataFrame) (n : nat) : Prop :=
  ∀ l c, (l, c) ∈ df → length c = n.

(** The reading of the rate "as the mean of [is_error] over exactly the
    rows that share the row's [service] value", for every row. *)
Definition rate_is_group_mean (svc ie rate : column) : Prop :=
  ∀ i k, svc !! i = Some k →
         rate !! i = Some (VFloat (mean (group_values svc ie k))).

(** The cell [o] holds the integer [z], in an [int64] or a [float64]
    column. *)
Definition holds_int (o : option value) (z : Z) : Prop :=
  o = Some (VInt z) ∨ o = Some (VFloat (float_of_Z z)).

(** ** The textual hand-off *)

(** A delimited text is kept as its grid of fields: the header row and one
    record per line.  The separator and quoting, which writer and reader
    agree on, are not unfolded; what a field's text is, and how the reader
    types a column from its fields, is. *)
Record csv : Type := Csv { header : list string; records : list (list string) }.

(** The text [to_csv] writes for one cell; a missing cell is the empty
    field. *)
Definition csv_field (v : value) : string :=
  if isna v then "" else str_value v.

Definition row (df : DataFrame) (i : nat) : list value :=
  (λ lc, default VNaN (lc.2 !! i)) <$> df.

(** [df.to_csv(index=False)] *)
Definition to_csv (df : DataFrame) : csv :=
  Csv (columns df) ((λ i, csv_field <$> row df i) <$> seq 0 (nrows df)).

(** The reader's default missing-value tokens. *)
Definition na_values : list string :=
  [""; "#N/A"; "#N/A N/A"; "#NA"; "-1.#IND"; "-1.#QNAN"; "-NaN"; "-nan";
   "1.#IND"; "1.#QNAN"; "<NA>"; "N/A"; "NA"; "NULL"; "NaN"; "None"; "n/a";
   "nan"; "null"].

Definition is_na (s : string) : bool := bool_decide (s ∈ na_values).

Definition parse_int64 (s : string) : option Z :=
  z ← parse_int s;
  if bool_decide (- 2 ^ 63 ≤ z < 2 ^ 63) then Some z else None.

(** A field read as a number of a [float64] column. *)
Definition parse_number (s : string) : option float :=
  match parse_int64 s with
  | Some z => Some (float_of_Z z)
  | None => float_parse s
  end.

Definition parse_bool (s : string) : option bool :=
  if bool_decide (s ∈ ["True"; "TRUE"; "true"]) then Some true
  else if bool_decide (s ∈ ["False"; "FALSE"; "false"]) then Some false
  else None.

(** The reader's typing of one column from its fields: [int64] if every
    field is an integer, else [float64] if every field is a number or
    missing, else [bool] if every field is a truth value, else objects
    (texts, with NaN for the missing ones). *)
Definition infer_column (fields : list string) : column :=
  if forallb (λ s, bool_decide (is_Some (parse_int64 s))) fields
  then (λ s, VInt (default 0 (parse_int64 s))) <$> fields
  else if forallb (λ s, is_na s || bool_decide (is_Some (parse_number s))) fields
  then (λ s, if is_na s then VNaN
             else from_option VFloat VNaN (parse_number s)) <$> fields
  else if forallb (λ s, bool_decide (is_Some (parse_bool s))) fields
  then (λ s, VBool (default false (parse_bool s))) <$> fields
  else (λ s, if is_na s then VNaN else VStr s) <$> fields.

(** An empty header field is named after its position. *)
Definition fill_unnamed (names : list string) : list string :=
  imap (λ i l, if bool_decide (l = "") then "Unnamed: " +:+ Z_repr (Z.of_nat i)
               else l) names.

(** The [while cur_count > 0] loop of the reader's header de-duplication:
    [col] is renamed [col.k] until the name is new. *)
Fixpoint fresh_name (fuel : nat) (counts : gmap string nat) (col : string)
    (cur_count : nat) : string * gmap string nat :=
  match fuel, cur_count with
  | S fuel', S _ =>
      let counts := <[col := S cur_count]> counts in
      let col := col +:+ "." +:+ Z_repr (Z.of_nat cur_count) in
      fresh_name fuel' counts col (default 0%nat (counts !! col))
  | _, _ => (col, counts)
  end.

Fixpoint dedup_names (counts : gmap string nat) (names : list string)
  : list string :=
  match names with
  | [] => []
  | col :: names' =>
      let '(col, counts) :=
        fresh_name (S (size counts)) counts col (default 0%nat (counts !! col)) in
      col :: dedup_names (<[col := 1%nat]> counts) names'
  end.

(** [pd.read_csv] on a grid: a record shorter than the header is padded
    with missing fields; a longer one is a tokenizing error. *)
Definition read_csv (t : csv) : result DataFrame :=
  if bool_decide (header t = []) then Raise ParserError
  else if forallb (λ r, (length r <=? length (header t))%nat) (records t)
  then Ok (imap (λ j l, (l, infer_column ((λ r, default "" (r !! j)) <$> records t)))
                (dedup_names ∅ (fill_unnamed (header t))))
  else Raise ParserError.

(** ** Well-formed fields *)

(** The text is no missing-value token, no number and no truth value, so
    the reader keeps it as a text. *)
Definition plain_text (s : string) : Prop :=
  is_na s = false ∧ parse_int s = None ∧ float_parse s = None
  ∧ parse_bool s = None.

(** A cell is well formed when the text [to_csv] writes for it denotes
    it: an integer fits 64 bits, the text of a number reads as that number,
    the text of an instant or a date is a plain text that parses to it. *)
Definition field_ok (v : value) : Prop :=
  match v with
  | VStr _ | VNaN => True
  | VNaT => False
  | VInt z => (- 2 ^ 63 ≤ z < 2 ^ 63)
  | VFloat f =>
      is_na (float_repr f) = false ∧ parse_int (float_repr f) = None
      ∧ float_parse (float_repr f) = Some f
  | VBool b => float_parse (if b then "True" else "False") = None
  | VTime t =>
      plain_text (format_datetime t)
      ∧ parse_datetime (format_datetime t) = Some t
  | VDate d =>
      plain_text (format_date d)
      ∧ ∃ t, parse_datetime (format_date d) = Some t ∧ ts_date t = d
  end.

(** ** The task context *)

(** What the callables reach through their hooks: the object the storage
    hook downloads, the value the upstream task returned (XCom), and the
    frames handed to the warehouse client so far. *)
Record world : Type :=
  World { gcs_object : csv; xcom : option csv; bq_loads : list DataFrame }.

(** ** [transform_logs] *)
Definition transform_logs (w : world) : result csv :=
  df ← read_csv (gcs_object w);
  let df := normalize df in
  df ← validate df;
  df ← engineer df;
  Ok (to_csv df).

(** ** Lines 92-100: type fixes before the load *)

(** [astype("int64")] on one cell *)
Definition int64_of (v : value) : result value :=
  match v with
  | VInt z => Ok (VInt z)
  | VFloat f =>
      match float_to_Z f with
      | Some z => Ok (VInt z)
      | None => Raise IntCastingNaNError
      end
  | VBool b => Ok (VInt (if b then 1 else 0))
  | VStr s =>
      match parse_int (strip s) with
      | Some z => Ok (VInt z)
      | None => Raise (InvalidLiteral s)
      end
  | VNaN | VNaT => Raise IntCastingNaNError
  | VTime _ | VDate _ => Raise DatetimeTypeError
  end.

(** [astype("float64")] on one cell *)
Definition float64_of (v : value) : result value :=
  match v with
  | VInt z => Ok (VFloat (float_of_Z z))
  | VFloat f => Ok (VFloat f)
  | VBool b => Ok (VFloat (float_of_Z (if b then 1 else 0)))
  | VStr s =>
      match parse_number (strip s) with
      | Some f => Ok (VFloat f)
      | None => Raise (InvalidLiteral s)
      end
  | VNaN | VNaT => Ok VNaN
  | VTime _ | VDate _ => Raise DatetimeTypeError
  end.

Definition astype_int64 (c : column) : result column := mapM_result int64_of c.
Definition astype_float64 (c : column) : result column := mapM_result float64_of c.

(** [pd.to_datetime(c).dt.date] *)
Definition to_date (c : column) : result column :=
  c ← to_datetime c; Ok (dt_date c).

(** [df[l] = f(df[l])] *)
Definition fix_column (l : string) (f : column → result column)
    (df : DataFrame) : result DataFrame :=
  c ← getitem df l; c ← f c; Ok (setitem df l c).

Definition coerce (df : DataFrame) : result DataFrame :=
  df ← fix_column "timestamp" to_datetime df;
  df ← fix_column "event_date" to_date df;
  df ← fix_column "hour_of_day" astype_int64 df;
  df ← fix_column "log_level_encoded" astype_int64 df;
  df ← fix_column "message_length" astype_int64 df;
  df ← fix_column "is_error" astype_int64 df;
  df ← fix_column "service_error_rate" astype_float64 df;
  fix_column "user_id" astype_int64 df.

(** The same eight assignments as a table, label and conversion. *)
Definition type_fixes : list (string * (column → result column)) :=
  [ ("timestamp", to_datetime); ("event_date", to_date);
    ("hour_of_day", astype_int64); ("log_level_encoded", astype_int64);
    ("message_length", astype_int64); ("is_error", astype_int64);
    ("service_error_rate", astype_float64); ("user_id", astype_int64) ].

Fixpoint apply_fixes (fixes : list (string * (column → result column)))
    (df : DataFrame) : result DataFrame :=
  match fixes with
  | [] => Ok df
  | (l, f) :: fixes' => df ← fix_column l f df; apply_fixes fixes' df
  end.

(** The conversion line 92-100 applies to each cell of the column [l]. *)
Definition cell_coercion (l : string) : option (value → result value) :=
  if bool_decide (l ∈ ["timestamp"; "event_date"]) then Some to_datetime1
  else if bool_decide (l ∈ ["hour_of_day"; "log_level_encoded";
                            "message_length"; "is_error"; "user_id"])
  then Some int64_of
  else if bool_decide (l = "service_error_rate") then Some float64_of
  else None.

(** The frame holds, in a column that is converted, a cell its conversion
    raises on. *)
Definition uncoercible (df : DataFrame) : Prop :=
  ∃ l c v g, (l, c) ∈ df ∧ v ∈ c ∧ cell_coercion l = Some g
             ∧ is_ok (g v) = false.

(** The error message names the column [l] and quotes the cell [v]. *)
Definition identifies (e : exn) (l : string) (v : value) : Prop :=
  exn_column e = Some l ∧ exn_value e = Some (str_value v).

(** The kind of cell a converted column holds after lines 92-100. *)
Definition typed_cell (l : string) (v : value) : Prop :=
  if bool_decide (l = "timestamp") then (∃ t, v = VTime t) ∨ v = VNaT
  else if bool_decide (l = "event_date") then (∃ d, v = VDate d) ∨ v = VNaT
  else if bool_decide (l = "service_error_rate")
  then (∃ f, v = VFloat f) ∨ v = VNaN
  else ∃ z, v = VInt z.

(** An enriched frame is well formed when its labels are distinct and not
    empty, every cell is well formed, and every cell of a converted column
    has the type of the column. *)
Definition well_formed (df : DataFrame) : Prop :=
  NoDup (columns df) ∧ ("" ∉ columns df)
  ∧ ∀ l c v, (l, c) ∈ df → v ∈ c →
      field_ok v ∧ (l ∈ type_fixes.*1 → typed_cell l v).

(** ** [load_to_bigquery] *)
Definition load_to_bigquery (w : world) : result world :=
  csv_data ← match xcom w with
              | Some t => Ok t
              | None => Raise NoTransformedData
              end;
  df ← read_csv csv_data;
  df ← coerce df;
  Ok (World (gcs_object w) (xcom w) (bq_loads w ++ [df])).

(** ** The DAG *)

Inductive outcome : Type :=
| Success
| Failed (task : string) (e : exn).

(** [transform_task >> load_bq_task]: the load runs only after the
    transform has succeeded, on the value the transform returned. *)
Definition run_dag (w : world) : world * outcome :=
  match transform_logs w with
  | Raise e => (w, Failed "transform_logs_feature_engineering" e)
  | Ok t =>
      let w := World (gcs_object w) (Some t) (bq_loads w) in
      match load_to_bigquery w with
      | Raise e => (w, Failed "load_to_bigquery" e)
      | Ok w' => (w', Success)
      end
  end.

End Pipeline.

Abbreviation column := (list value).
Abbreviation DataFrame := (list (string * column)).

(** ** A small instance of the interfaces, to run the pipeline on examples *)

Module Sample.

(** Fixed-point numbers with six decimals stand in for binary64: the
    number [a] is [a / 10^6]. *)
Definition scale : Z := 1000000.

Fixpoint digits_value (acc : Z) (s : string) : option Z :=
  match s with
  | EmptyString => Some acc
  | String c s' =>
      let n := Z.of_nat (nat_of_ascii c) in
      if bool_decide (48 ≤ n ≤ 57) then digits_value (10 * acc + (n - 48)) s'
      else None
  end.

(** A non-empty run of decimal digits. *)
Definition digits (s : string) : option Z :=
  if bool_decide (s = "") then None else digits_value 0 s.

Fixpoint split_on (sep : ascii) (s : string) : list string :=
  match s with
  | EmptyString => [EmptyString]
  | String c s' =>
      if bool_decide (c = sep) then EmptyString :: split_on sep s'
      else match split_on sep s' with
           | [] => [String c EmptyString]
           | p :: ps => String c p :: ps
           end
  end.

Fixpoint zeros (k : nat) (s : string) : string :=
  match k with
  | O => s
  | S k' => String "0" (zeros k' s)
  end.

Definition pad_left (n : nat) (s : string) : string :=
  zeros (n - String.length s) s.

Fixpoint strip_zeros (fuel : nat) (a : Z) (width : nat) : Z * nat :=
  match fuel, width with
  | S fuel', S width' =>
      if bool_decide (a `mod` 10 = 0) then strip_zeros fuel' (a / 10) width'
      else (a, width)
  | _, _ => (a, width)
  end.

Definition fixed_repr (a : Z) : string :=
  let sign := if bool_decide (a < 0) then "-" else "" in
  let m := Z.abs a in
  let '(frac, width) := strip_zeros 5 (m `mod` scale) 6 in
  sign +:+ Z_repr (m / scale) +:+ "." +:+ pad_left width (Z_repr frac).

Definition fixed_parse_unsigned (s : string) : option Z :=
  match split_on "." s with
  | [i; f] =>
      i ← digits i;
      n ← digits f;
      if bool_decide (String.length f ≤ 6)%nat
      then Some (i * scale + n * 10 ^ (6 - Z.of_nat (String.length f)))
      else None
  | _ => None
  end.

Definition fixed_parse (s : string) : option Z :=
  match s with
  | String "-" s' => Z.opp <$> fixed_parse_unsigned s'
  | _ => fixed_parse_unsigned s
  end.

Global Instance fixed_float : Float64 := {|
  float := Z;
  float_of_Z z := z * scale;
  float_div a b := (a * scale) `quot` b;
  float_to_Z a := Some (a `quot` scale);
  float_repr := fixed_repr;
  float_parse := fixed_parse;
|}.

(** Instants written [YYYY-MM-DD HH:MM:SS], dates [YYYY-MM-DD]. *)
Definition iso_date (s : string) : option date :=
  match split_on "-" s with
  | [y; m; d] =>
      y ← digits y; m ← digits m; d ← digits d;
      if bool_decide (1 ≤ m ≤ 12 ∧ 1 ≤ d ≤ 31) then Some (Date y m d) else None
  | _ => None
  end.

Definition iso_time (d : date) (s : string) : option Timestamp :=
  match split_on ":" s with
  | [h; m; sec] =>
      h ← digits h; m ← digits m; sec ← digits sec;
      if bool_decide (h ≤ 23 ∧ m ≤ 59 ∧ sec ≤ 59)
      then Some (Tstamp d h m sec 0) else None
  | _ => None
  end.

Definition iso_parse (s : string) : option Timestamp :=
  match split_on " " s with
  | [d] => midnight <$> iso_date d
  | [d; t] => d ← iso_date d; iso_time d t
  | _ => None
  end.

Definition two (z : Z) : string := pad_left 2 (Z_repr z).

Definition iso_format_date (d : date) : string :=
  pad_left 4 (Z_repr (year d)) +:+ "-" +:+ two (month d) +:+ "-" +:+ two (day d).

Definition iso_format (t : Timestamp) : string :=
  iso_format_date (ts_date t) +:+ " " +:+ two (ts_hour t) +:+ ":"
    +:+ two (ts_minute t) +:+ ":" +:+ two (ts_second t).

Global Instance iso_datetime : DateTime := {|
  parse_datetime := iso_parse;
  epoch_datetime ns := Tstamp (Date 1970 1 1) 0 0 (ns `div` 1000000000)
                              (ns `mod` 1000000000);
  format_datetime := iso_format;
  format_date := iso_format_date;
|}.

(** The three-row batch of the specification's scenario, as the object the
    storage hook downloads. *)
Definition scenario : csv :=
  Csv ["Timestamp"; " Log_Level "; "service"; "message"; "user_id"]
      [ ["2024-01-15 10:30:00"; "INFO"; "svc-a"; "hello"; "1"];
        ["2024-01-15 11:00:00"; "ERROR"; "svc-a"; "oops"; "2"];
        ["2024-01-16 23:59:59"; "ERROR"; "svc-b"; "bad"; "3"] ].

Definition world0 (t : csv) : world := World t None [].

(** The frame the reader makes of the scenario, the validated frame, and
    the frame engineered from it. *)
Definition raw : DataFrame :=
  [ ("Timestamp", [VStr "2024-01-15 10:30:00"; VStr "2024-01-15 11:00:00";
                   VStr "2024-01-16 23:59:59"]);
    (" Log_Level ", [VStr "INFO"; VStr "ERROR"; VStr "ERROR"]);
    ("service", [VStr "svc-a"; VStr "svc-a"; VStr "svc-b"]);
    ("message", [VStr "hello"; VStr "oops"; VStr "bad"]);
    ("user_id", [VInt 1; VInt 2; VInt 3]) ].

Definition batch : DataFrame := normalize raw.

Definition enriched : DataFrame :=
  match engineer batch with
  | Ok df => df
  | Raise _ => []
  end.

(** A batch whose first record has an empty [service] field. *)
Definition gap : csv :=
  Csv ["timestamp"; "log_level"; "service"; "message"; "user_id"]
      [ ["2024-01-15 10:30:00"; "ERROR"; ""; "oops"; "1"];
        ["2024-01-15 11:00:00"; "INFO"; "svc-a"; "hello"; "2"] ].

Definition gap_raw : DataFrame :=
  [ ("timestamp", [VStr "2024-01-15 10:30:00"; VStr "2024-01-15 11:00:00"]);
    ("log_level", [VStr "ERROR"; VStr "INFO"]);
    ("service", [VNaN; VStr "svc-a"]);
    ("message", [VStr "oops"; VStr "hello"]);
    ("user_id", [VInt 1; VInt 2]) ].

Definition gap_enriched : DataFrame :=
  match engineer (normalize gap_raw) with
  | Ok df => df
  | Raise _ => []
  end.

(** A batch with a level outside the map, what [transform_logs] hands
    off for it, and the frame [load_to_bigquery] reads back. *)
Definition debug : csv :=
  Csv ["timestamp"; "log_level"; "service"; "message"; "user_id"]
      [ ["2024-01-15 10:30:00"; "INFO"; "svc-a"; "hello"; "1"];
        ["2024-01-15 11:00:00"; "DEBUG"; "svc-a"; "dbg"; "2"] ].

Definition debug_raw : DataFrame :=
  [ ("timestamp", [VStr "2024-01-15 10:30:00"; VStr "2024-01-15 11:00:00"]);
    ("log_level", [VStr "INFO"; VStr "DEBUG"]);
    ("service", [VStr "svc-a"; VStr "svc-a"]);
    ("message", [VStr "hello"; VStr "dbg"]);
    ("user_id", [VInt 1; VInt 2]) ].

Definition debug_handoff : csv :=
  Csv ["timestamp"; "log_level"; "service"; "message"; "user_id";
       "event_date"; "hour_of_day"; "is_error"; "log_level_encoded";
       "message_length"; "service_error_rate"]
      [ ["2024-01-15 10:30:00"; "INFO"; "svc-a"; "hello"; "1";
         "2024-01-15"; "10"; "0"; "0.0"; "5"; "0.0"];
        ["2024-01-15 11:00:00"; "DEBUG"; "svc-a"; "dbg"; "2";
         "2024-01-15"; "11"; "0"; ""; "3"; "0.0"] ].

Definition debug_read : DataFrame :=
  [ ("timestamp", [VStr "2024-01-15 10:30:00"; VStr "2024-01-15 11:00:00"]);
    ("log_level", [VStr "INFO"; VStr "DEBUG"]);
    ("service", [VStr "svc-a"; VStr "svc-a"]);
    ("message", [VStr "hello"; VStr "dbg"]);
    ("user_id", [VInt 1; VInt 2]);
    ("event_date", [VStr "2024-01-15"; VStr "2024-01-15"]);
    ("hour_of_day", [VInt 10; VInt 11]);
    ("is_error", [VInt 0; VInt 0]);
    ("log_level_encoded", [VFloat 0; VNaN]);
    ("message_length", [VInt 5; VInt 3]);
    ("service_error_rate", [VFloat 0; VFloat 0]) ].

(** The engineered scenario, written out. *)
Definition expected : DataFrame :=
  [ ("timestamp", [VTime (Tstamp (Date 2024 1 15) 10 30 0 0);
                   VTime (Tstamp (Date 2024 1 15) 11 0 0 0);
                   VTime (Tstamp (Date 2024 1 16) 23 59 59 0)]);
    ("log_level", [VStr "INFO"; VStr "ERROR"; VStr "ERROR"]);
    ("service", [VStr "svc-a"; VStr "svc-a"; VStr "svc-b"]);
    ("message", [VStr "hello"; VStr "oops"; VStr "bad"]);
    ("user_id", [VInt 1; VInt 2; VInt 3]);
    ("event_date", [VDate (Date 2024 1 15); VDate (Date 2024 1 15);
                    VDate (Date 2024 1 16)]);
    ("hour_of_day", [VInt 10; VInt 11; VInt 23]);
    ("is_error", [VInt 0; VInt 1; VInt 1]);
    ("log_level_encoded", [VInt 0; VInt 2; VInt 2]);
    ("message_length", [VInt 5; VInt 4; VInt 3]);
    ("service_error_rate", [VFloat 500000; VFloat 500000; VFloat 1000000]) ].

(** What the reader makes of the scenario's hand-off. *)
Definition read_back : DataFrame :=
  match read_csv (to_csv expected) with
  | Ok df => df
  | Raise _ => []
  end.

(** A batch whose second timestamp is no date. *)
Definition bad_time : csv :=
  Csv ["timestamp"; "log_level"; "service"; "message"; "user_id"]
      [ ["2024-01-15 10:30:00"; "INFO"; "svc-a"; "hello"; "1"];
        ["yesterday"; "INFO"; "svc-a"; "late"; "2"] ].

Definition bad_time_raw : DataFrame :=
  [ ("timestamp", [VStr "2024-01-15 10:30:00"; VStr "yesterday"]);
    ("log_level", [VStr "INFO"; VStr "INFO"]);
    ("service", [VStr "svc-a"; VStr "svc-a"]);
    ("message", [VStr "hello"; VStr "late"]);
    ("user_id", [VInt 1; VInt 2]) ].

(** The scenario without its [user_id] column. *)
Definition scenario_no_user : csv :=
  Csv ["Timestamp"; " Log_Level "; "service"; "message"]
      [ ["2024-01-15 10:30:00"; "INFO"; "svc-a"; "hello"] ].

End Sample.


(** * Properties *)

Ltac in_list :=
  solve [repeat first [apply list_elem_of_here | apply list_elem_of_further]].

Ltac not_in_list :=
  repeat (apply not_elem_of_cons; split; [done|]); apply not_elem_of_nil.

Section Properties.
Context {F : Float64} {D : DateTime}.

Implicit Types (df out : DataFrame) (c : column) (l : string) (v : value).

(** ** The result monad *)

Lemma bind_Ok {A B : Type} (r : result A) (k : A → result B) (b : B) :
  r ≫= k = Ok b → ∃ a, r = Ok a ∧ k a = Ok b.
Proof. destruct r as [a|e]; simpl; [eauto | discriminate]. Qed.

Lemma bind_Raise {A B : Type} (r : result A) (k : A → result B) (e : exn) :
  r = Raise e → r ≫= k = Raise e.
Proof. now intros ->. Qed.

Lemma mapM_result_length {A B : Type} (f : A → result B) (l : list A) (l' : list B) :
  mapM_result f l = Ok l' → length l' = length l.
Proof.
  revert l'; induction l as [|a l IH]; intros l' H; simpl in H.
  - now inversion H.
  - apply bind_Ok in H as (b & _ & H). apply bind_Ok in H as (bs & Hbs & H).
    inversion H; subst; simpl. f_equal. now apply IH.
Qed.

Lemma mapM_result_lookup {A B : Type} (f : A → result B) (l : list A) (l' : list B) :
  mapM_result f l = Ok l' →
  ∀ i a, l !! i = Some a → ∃ b, f a = Ok b ∧ l' !! i = Some b.
Proof.
  revert l'; induction l as [|a0 l IH]; intros l' H i a Hi; [done|].
  simpl in H. apply bind_Ok in H as (b & Hb & H).
  apply bind_Ok in H as (bs & Hbs & H). inversion H; subst.
  destruct i as [|i]; simpl in *.
  - inversion Hi; subst. eauto.
  - eauto.
Qed.

(** One failing element makes the whole traversal raise. *)
Lemma mapM_result_raise {A B : Type} (f : A → result B) (l : list A) (a : A) :
  a ∈ l → is_ok (f a) = false → is_ok (mapM_result f l) = false.
Proof.
  induction 1 as [a l|a a' l _ IH]; intros Ha; simpl.
  - destruct (f a); [discriminate | done].
  - destruct (f a'); simpl; [|done].
    specialize (IH Ha). destruct (mapM_result f l); [discriminate | done].
Qed.

(** ** Reading and writing columns *)

Lemma columns_setitem df l c :
  columns (setitem df l c)
  = if bool_decide (l ∈ columns df) then columns df else columns df ++ [l].
Proof.
  unfold setitem, columns. case_bool_decide as Hl.
  - rewrite <- list_fmap_compose. apply list_fmap_ext.
    intros i [l' c'] _; simpl. case_bool_decide; simpl in *; congruence.
  - now rewrite fmap_app.
Qed.

Lemma cols_named_cons l l' c df :
  cols_named l ((l', c) :: df)
  = if decide (l' = l) then c :: cols_named l df else cols_named l df.
Proof.
  unfold cols_named. rewrite filter_cons. simpl. now destruct (decide (l' = l)).
Qed.

Lemma cols_named_app l df df' :
  cols_named l (df ++ df') = cols_named l df ++ cols_named l df'.
Proof. unfold cols_named. now rewrite filter_app, fmap_app. Qed.

Lemma cols_named_elem l df c : c ∈ cols_named l df ↔ (l, c) ∈ df.
Proof.
  induction df as [|[l0 c0] df IH].
  - cbn. now rewrite !elem_of_nil.
  - rewrite cols_named_cons, elem_of_cons. destruct (decide (l0 = l)) as [->|Hne].
    + rewrite elem_of_cons, IH. split; intros [H|H]; auto; left; congruence.
    + rewrite IH. split; [auto|]. intros [H|H]; [congruence|done].
Qed.

Lemma elem_columns df l c : (l, c) ∈ df → l ∈ columns df.
Proof. intros H. unfold columns. apply list_elem_of_fmap. now exists (l, c). Qed.

Lemma cols_named_nil l df : l ∉ columns df → cols_named l df = [].
Proof.
  intros Hl. destruct (cols_named l df) as [|c cs] eqn:E; [done|].
  exfalso. apply Hl, (elem_columns _ _ c), cols_named_elem.
  rewrite E. apply list_elem_of_here.
Qed.

Lemma cols_named_setitem_ne df l l' c :
  l ≠ l' → cols_named l' (setitem df l c) = cols_named l' df.
Proof.
  intros Hne. unfold setitem. case_bool_decide as Hl.
  - clear Hl. induction df as [|[l0 c0] df IH]; [done|].
    rewrite fmap_cons. simpl. case_bool_decide as E; simpl in E.
    + subst l0. rewrite !cols_named_cons, !decide_False by done. apply IH.
    + rewrite !cols_named_cons. destruct (decide (l0 = l')); now rewrite IH.
  - rewrite cols_named_app, cols_named_cons, decide_False by done.
    apply app_nil_r.
Qed.

Lemma cols_named_setitem_eq df l c :
  cols_named l (setitem df l c)
  = if bool_decide (l ∈ columns df)
    then replicate (length (cols_named l df)) c else [c].
Proof.
  unfold setitem. case_bool_decide as Hl.
  - clear Hl. induction df as [|[l0 c0] df IH]; [done|].
    rewrite fmap_cons. simpl. case_bool_decide as E; simpl in E.
    + subst l0. rewrite !cols_named_cons, !decide_True by done. simpl.
      now rewrite IH.
    + rewrite !cols_named_cons, !decide_False by done. apply IH.
  - rewrite cols_named_app, cols_named_cons, decide_True by done.
    now rewrite (cols_named_nil _ _ Hl).
Qed.

Lemma getitem_setitem_ne df l l' c :
  l ≠ l' → getitem (setitem df l c) l' = getitem df l'.
Proof. intros H. unfold getitem. now rewrite cols_named_setitem_ne. Qed.

Lemma getitem_Ok df l c : getitem df l = Ok c → cols_named l df = [c].
Proof.
  unfold getitem. destruct (cols_named l df) as [|c0 [|c1 cs]]; try discriminate.
  now intros [= ->].
Qed.

Lemma getitem_elem df l c : getitem df l = Ok c → (l, c) ∈ df.
Proof.
  intros H%getitem_Ok. apply cols_named_elem. rewrite H. apply list_elem_of_here.
Qed.

Lemma getitem_unique df l c c' : getitem df l = Ok c → (l, c') ∈ df → c' = c.
Proof.
  intros H%getitem_Ok Hc'%cols_named_elem. rewrite H in Hc'.
  now apply list_elem_of_singleton in Hc'.
Qed.

(** Overwriting a column that is read as one column keeps it one column. *)
Lemma getitem_setitem_eq df l c c' :
  getitem df l = Ok c → getitem (setitem df l c') l = Ok c'.
Proof.
  intros H. unfold getitem. rewrite cols_named_setitem_eq.
  rewrite bool_decide_eq_true_2 by (eapply elem_columns, getitem_elem, H).
  apply getitem_Ok in H. now rewrite H.
Qed.

(** After [df[l] = c], every column labelled [l] is [c], and there is one. *)
Lemma setitem_holds df l c :
  l ∈ columns (setitem df l c) ∧ ∀ c', (l, c') ∈ setitem df l c → c' = c.
Proof.
  split.
  - rewrite columns_setitem. case_bool_decide; [done|].
    apply elem_of_app. right. apply list_elem_of_here.
  - intros c' H%cols_named_elem. rewrite cols_named_setitem_eq in H.
    case_bool_decide.
    + now apply elem_of_replicate in H as [-> _].
    + now apply list_elem_of_singleton in H.
Qed.

Lemma setitem_other df l l' c c' :
  l ≠ l' → (l', c') ∈ setitem df l c ↔ (l', c') ∈ df.
Proof.
  intros H. now rewrite <- !cols_named_elem, cols_named_setitem_ne.
Qed.

(** ** What [engineer] reads and returns *)

Ltac step_bind H :=
  let E := fresh "E" in
  apply bind_Ok in H as (? & E & H); cbv beta in H;
  repeat (rewrite getitem_setitem_ne in E by done).

Lemma engineer_inv df out :
  engineer df = Ok out →
  ∃ ts0 ts lv msg svc,
    getitem df "timestamp" = Ok ts0 ∧ to_datetime ts0 = Ok ts
    ∧ getitem df "log_level" = Ok lv ∧ getitem df "message" = Ok msg
    ∧ getitem df "service" = Ok svc
    ∧ out = engineered df ts lv msg svc
    ∧ getitem out "is_error" = Ok (is_error_of lv).
Proof.
  unfold engineer. intros H.
  step_bind H. rename x into ts0, E into Ets0.
  step_bind H. rename x into ts, E into Ets.
  step_bind H. rewrite (getitem_setitem_eq _ _ _ _ Ets0) in E. injection E as <-.
  step_bind H. rewrite (getitem_setitem_eq _ _ _ _ Ets0) in E. injection E as <-.
  step_bind H. rename x into lv, E into Elv.
  step_bind H. rewrite Elv in E. injection E as <-.
  step_bind H. rename x into msg, E into Emsg.
  step_bind H. rename x into svc, E into Esvc.
  step_bind H. rename x into err, E into Eerr.
  step_bind H. rewrite Esvc in E. injection E as <-.
  injection H as <-.
  assert (err = is_error_of lv) as ->.
  { apply getitem_elem in Eerr. now apply setitem_holds in Eerr. }
  exists ts0, ts, lv, msg, svc. repeat (split; [done|]).
  now rewrite !getitem_setitem_ne by done.
Qed.

(** ** Labels *)

Lemma is_space_lower_char (a : ascii) : is_space (lower_char a) = is_space a.
Proof. destruct a as [[] [] [] [] [] [] [] []]; reflexivity. Qed.

Lemma lower_char_idemp (a : ascii) : lower_char (lower_char a) = lower_char a.
Proof. destruct a as [[] [] [] [] [] [] [] []]; reflexivity. Qed.

Lemma lower_idemp (s : string) : lower (lower s) = lower s.
Proof. induction s as [|a s IH]; simpl; [done|]. now rewrite lower_char_idemp, IH. Qed.

Lemma lstrip_lower (s : string) : lstrip (lower s) = lower (lstrip s).
Proof.
  induction s as [|a s IH]; simpl; [done|].
  rewrite is_space_lower_char. now destruct (is_space a).
Qed.

Lemma rstrip_lower (s : string) : rstrip (lower s) = lower (rstrip s).
Proof.
  induction s as [|a s IH]; simpl; [done|].
  rewrite IH, is_space_lower_char.
  destruct (rstrip s); simpl; [now destruct (is_space a) | done].
Qed.

Lemma strip_lower (s : string) : strip (lower s) = lower (strip s).
Proof. unfold strip. now rewrite lstrip_lower, rstrip_lower. Qed.

Lemma lstrip_no_lead (s : string) : no_lead (lstrip s).
Proof.
  induction s as [|a s IH]; simpl; [done|].
  destruct (is_space a) eqn:E; [done | exact E].
Qed.

Lemma lstrip_id (s : string) : no_lead s → lstrip s = s.
Proof. destruct s as [|a s]; simpl; [done|]. now intros ->. Qed.

Lemma rstrip_no_lead (s : string) : no_lead s → no_lead (rstrip s).
Proof.
  destruct s as [|a s]; simpl; [done|]. intros E.
  destruct (rstrip s); simpl; [now rewrite E | done].
Qed.

Lemma rstrip_idemp (s : string) : rstrip (rstrip s) = rstrip s.
Proof.
  induction s as [|a s IH]; simpl; [done|].
  destruct (rstrip s) as [|b r] eqn:E.
  - destruct (is_space a) eqn:Ea; simpl; [done | now rewrite Ea].
  - change (rstrip (String a (String b r))) with
      (match rstrip (String b r) with
       | EmptyString => if is_space a then EmptyString else String a EmptyString
       | r' => String a r'
       end).
    now rewrite IH.
Qed.

Lemma strip_idemp (s : string) : strip (strip s) = strip s.
Proof.
  unfold strip. rewrite (lstrip_id (rstrip (lstrip s))).
  - apply rstrip_idemp.
  - apply rstrip_no_lead, lstrip_no_lead.
Qed.

(** A normalised label is a fixed point of the normalisation. *)
Lemma normal_label_idemp (l : string) :
  lower (strip (lower (strip l))) = lower (strip l).
Proof. now rewrite strip_lower, strip_idemp, lower_idemp. Qed.

Lemma columns_normalize df :
  columns (normalize df) = (λ l, lower (strip l)) <$> columns df.
Proof.
  unfold columns, normalize. rewrite <- !list_fmap_compose.
  apply list_fmap_ext. now intros i [l c] _.
Qed.

Lemma validate_Ok df :
  (∀ r, r ∈ required_columns → r ∈ columns df) → validate df = Ok df.
Proof.
  intros H. unfold validate.
  destruct (forallb _ _) eqn:E; [done|].
  apply not_true_iff_false in E. exfalso. apply E.
  apply forallb_forall. intros r Hr%list_elem_of_In.
  apply bool_decide_eq_true. auto.
Qed.

Lemma validate_Raise df r :
  r ∈ required_columns → r ∉ columns df →
  validate df = Raise (MissingRequiredColumns (columns df)).
Proof.
  intros Hr Hn. unfold validate.
  destruct (forallb _ _) eqn:E; [|done].
  exfalso. apply Hn. rewrite forallb_forall in E.
  apply list_elem_of_In, E in Hr. now apply bool_decide_eq_true in Hr.
Qed.


(** C3.  When a required label is missing after normalisation, validation
    raises the error that lists the labels found, [transform_logs] raises
    it, and the DAG run fails in the transform task with the context,
    and so the list of frames handed to the warehouse, untouched.  When
    every required label is there, validation returns the frame as it
    is. *)
Theorem missing_column_aborts_run (w : world) df :
  read_csv (gcs_object w) = Ok df →
  ((∃ r, r ∈ required_columns ∧ r ∉ columns (normalize df)) →
     let e := MissingRequiredColumns (columns (normalize df)) in
     validate (normalize df) = Raise e
     ∧ transform_logs w = Raise e
     ∧ run_dag w = (w, Failed "transform_logs_feature_engineering" e)
     ∧ bq_loads (run_dag w).1 = bq_loads w)
  ∧ ((∀ r, r ∈ required_columns → r ∈ columns (normalize df)) →
     validate (normalize df) = Ok (normalize df)).
Proof.
  intros Hread. split; [|apply validate_Ok].
  intros (r & Hr & Hn) e.
  assert (Hv : validate (normalize df) = Raise e) by (eapply validate_Raise; eauto).
  assert (Ht : transform_logs w = Raise e).
  { unfold transform_logs. rewrite Hread. simpl. now rewrite Hv. }
  unfold run_dag. now rewrite Ht.
Qed.

(** ** The derived columns *)

Lemma numeric_column_length (l : list (option Z)) :
  length (numeric_column l) = length l.
Proof. unfold numeric_column. destruct (forallb _ l); apply length_fmap. Qed.

Lemma numeric_column_Some (l : list (option Z)) i z :
  l !! i = Some (Some z) → holds_int (numeric_column l !! i) z.
Proof.
  intros H. unfold numeric_column, holds_int.
  destruct (forallb _ l); rewrite list_lookup_fmap, H; simpl; auto.
Qed.

Lemma numeric_column_None (l : list (option Z)) i :
  l !! i = Some None → numeric_column l !! i = Some VNaN.
Proof.
  intros H. unfold numeric_column.
  destruct (forallb _ l) eqn:E.
  - rewrite forallb_forall in E.
    assert (Hin : In None l) by (apply list_elem_of_In; eapply list_elem_of_lookup_2, H).
    apply E, bool_decide_eq_true in Hin. now destruct Hin.
  - now rewrite list_lookup_fmap, H.
Qed.

Lemma log_level_lookup_other v :
  v ≠ VStr "INFO" → v ≠ VStr "WARN" → v ≠ VStr "ERROR" →
  log_level_lookup v = None.
Proof.
  intros H1 H2 H3. destruct v as [s| | | | | | |]; try done. simpl.
  unfold log_level_map.
  rewrite !lookup_insert_ne by congruence.
  apply lookup_singleton_ne. congruence.
Qed.

(** The derived columns of the frame [engineer] returns. *)
Lemma engineered_columns df ts lv msg svc l c' :
  (l, c') ∈ engineered df ts lv msg svc →
  (l = "event_date" → c' = dt_date ts)
  ∧ (l = "hour_of_day" → c' = dt_hour ts)
  ∧ (l = "is_error" → c' = is_error_of lv)
  ∧ (l = "log_level_encoded" → c' = map_log_level lv)
  ∧ (l = "message_length" → c' = message_length_of msg)
  ∧ (l = "service_error_rate"
     → c' = map_series (groupby_mean svc (is_error_of lv)) svc).
Proof.
  unfold engineered. intros H.
  repeat split; intros ->;
    repeat (rewrite setitem_other in H by done);
    now apply setitem_holds in H.
Qed.

Lemma columns_setitem_elem df l l' c :
  l' ∈ columns (setitem df l c) ↔ l' = l ∨ l' ∈ columns df.
Proof.
  rewrite columns_setitem. case_bool_decide as E.
  - split; [auto|]. now intros [->|?].
  - rewrite elem_of_app, list_elem_of_singleton. tauto.
Qed.

Lemma engineered_has df ts lv msg svc l :
  l ∈ ["timestamp"; "event_date"; "hour_of_day"; "is_error";
       "log_level_encoded"; "message_length"; "service_error_rate"] →
  l ∈ columns (engineered df ts lv msg svc).
Proof.
  unfold engineered. rewrite !columns_setitem_elem.
  rewrite !elem_of_cons, elem_of_nil. tauto.
Qed.

(** C2.  In the engineered frame the column [is_error] has, on every row,
    the integer 1 when the row's [log_level] is the text ["ERROR"] and the
    integer 0 for every other cell, a missing one included. *)
Theorem is_error_iff_ERROR df out :
  engineer df = Ok out →
  ∃ lv ie,
    getitem df "log_level" = Ok lv ∧ getitem out "is_error" = Ok ie
    ∧ length ie = length lv
    ∧ ∀ i v, lv !! i = Some v →
        ∃ b, ie !! i = Some (VInt b) ∧ (b = 0 ∨ b = 1)
             ∧ (b = 1 ↔ v = VStr "ERROR").
Proof.
  intros H.
  apply engineer_inv in H as (ts0 & ts & lv & msg & svc & _ & _ & Hlv & _ & _ & _ & Hie).
  exists lv, (is_error_of lv). split; [done|]. split; [done|]. split.
  - apply length_fmap.
  - intros i v Hi. unfold is_error_of. rewrite list_lookup_fmap, Hi. simpl.
    case_bool_decide as E; eexists; (split; [done|]); split; auto; split; done.
Qed.

(** C6.  In the engineered frame every column labelled
    [log_level_encoded] is the image of [log_level] under the fixed map: a
    row whose level is ["INFO"], ["WARN"] or ["ERROR"] holds 0, 1 or 2, and
    a row with any other cell holds the missing value, never a number. *)
Theorem log_level_encoded_mapping df out :
  engineer df = Ok out →
  ∃ lv enc,
    getitem df "log_level" = Ok lv
    ∧ "log_level_encoded" ∈ columns out
    ∧ (∀ c', ("log_level_encoded", c') ∈ out → c' = enc)
    ∧ length enc = length lv
    ∧ ∀ i v, lv !! i = Some v →
        (v = VStr "INFO" → holds_int (enc !! i) 0)
        ∧ (v = VStr "WARN" → holds_int (enc !! i) 1)
        ∧ (v = VStr "ERROR" → holds_int (enc !! i) 2)
        ∧ (v ≠ VStr "INFO" → v ≠ VStr "WARN" → v ≠ VStr "ERROR" →
           enc !! i = Some VNaN).
Proof.
  intros H.
  apply engineer_inv in H as (ts0 & ts & lv & msg & svc & _ & _ & Hlv & _ & _ & -> & _).
  exists lv, (map_log_level lv). split; [done|]. split; [|split; [|split]].
  - apply engineered_has. set_solver.
  - intros c' Hc'. now apply engineered_columns in Hc' as (_ & _ & _ & -> & _).
  - unfold map_log_level. now rewrite numeric_column_length, length_fmap.
  - intros i v Hi. unfold map_log_level.
    repeat split.
    + intros ->. apply numeric_column_Some. now rewrite list_lookup_fmap, Hi.
    + intros ->. apply numeric_column_Some. now rewrite list_lookup_fmap, Hi.
    + intros ->. apply numeric_column_Some. now rewrite list_lookup_fmap, Hi.
    + intros H1 H2 H3. apply numeric_column_None.
      rewrite list_lookup_fmap, Hi. simpl. f_equal.
      now apply log_level_lookup_other.
Qed.


(** ** The frame effect of [engineer] *)

Lemma rectangular_forallb df n :
  forallb (λ lc, bool_decide (length lc.2 = n)) df = true → rectangular df n.
Proof.
  intros H l c Hin. rewrite forallb_forall in H.
  apply list_elem_of_In, H in Hin. now apply bool_decide_eq_true in Hin.
Qed.

Lemma setitem_rectangular df l c n :
  rectangular df n → length c = n → rectangular (setitem df l c) n.
Proof.
  intros Hdf Hc l' c' Hin. destruct (decide (l = l')) as [<-|Hne].
  - apply setitem_holds in Hin. now subst.
  - apply (Hdf l'). now apply (setitem_other df l l' c c') in Hin.
Qed.

Lemma columns_setitem_acc df (ls acc : list string) l c :
  columns df = ls ++ filter (λ l, l ∉ ls) acc → l ∉ acc →
  columns (setitem df l c) = ls ++ filter (λ l, l ∉ ls) (acc ++ [l]).
Proof.
  intros Hdf Hl. rewrite columns_setitem, Hdf, filter_app, filter_cons, filter_nil.
  case_bool_decide as E.
  - rewrite decide_False; [now rewrite app_nil_r|].
    intros Hn. apply elem_of_app in E as [E|E]; [done|].
    apply list_elem_of_filter in E as [_ E]. done.
  - rewrite decide_True; [now rewrite app_assoc|].
    intros Hn. apply E, elem_of_app. now left.
Qed.

Lemma map_series_length (series : list (value * float)) c :
  length (map_series series c) = length c.
Proof. apply length_fmap. Qed.

Lemma to_datetime_length c c' : to_datetime c = Ok c' → length c' = length c.
Proof. apply mapM_result_length. Qed.

Lemma dt_hour_length c : length (dt_hour c) = length c.
Proof. unfold dt_hour. now rewrite numeric_column_length, length_fmap. Qed.

Lemma nrows_rectangular df n : df ≠ [] → rectangular df n → nrows df = n.
Proof.
  destruct df as [|[l c] df]; [done|]. intros _ H. apply (H l). apply list_elem_of_here.
Qed.

(** The frame effect of lines 63-75, for use below. *)
Lemma engineer_frame df out :
  engineer df = Ok out →
  columns out
  = columns df ++ filter (λ l, l ∉ columns df) derived_columns
  ∧ ((∀ l, l ∈ derived_columns → l ∉ columns df) →
     columns out = columns df ++ derived_columns)
  ∧ (∀ l, l ∈ derived_columns → l ∈ columns out)
  ∧ (∀ l, l ≠ "timestamp" → l ∉ derived_columns →
     cols_named l out = cols_named l df ∧ getitem out l = getitem df l)
  ∧ (∀ l, l ∈ ["log_level"; "service"; "message"; "user_id"] →
     getitem out l = getitem df l)
  ∧ (∀ n, rectangular df n → rectangular out n ∧ nrows out = nrows df).
Proof.
  intros H.
  apply engineer_inv in H
    as (ts0 & ts & lv & msg & svc & Hts0 & Hts & Hlv & Hmsg & Hsvc & -> & _).
  assert (Hother : ∀ l, l ≠ "timestamp" → l ∉ derived_columns →
            cols_named l (engineered df ts lv msg svc) = cols_named l df).
  { intros l H1 H2. unfold engineered.
    unfold derived_columns in H2. rewrite !not_elem_of_cons in H2.
    destruct H2 as (? & ? & ? & ? & ? & ? & _).
    now rewrite !cols_named_setitem_ne by done. }
  assert (Hcols : columns (engineered df ts lv msg svc)
                  = columns df ++ filter (λ l, l ∉ columns df) derived_columns).
  { unfold engineered, derived_columns.
    assert (H0 : columns (setitem df "timestamp" ts)
                 = columns df ++ filter (λ l, l ∉ columns df) []).
    { rewrite columns_setitem, bool_decide_eq_true_2, filter_nil, app_nil_r; [done|].
      eapply elem_columns, getitem_elem, Hts0. }
    apply (columns_setitem_acc _ _ ["event_date"; "hour_of_day"; "is_error";
                                    "log_level_encoded"; "message_length"]);
      [|not_in_list].
    apply (columns_setitem_acc _ _ ["event_date"; "hour_of_day"; "is_error";
                                    "log_level_encoded"]); [|not_in_list].
    apply (columns_setitem_acc _ _ ["event_date"; "hour_of_day"; "is_error"]);
      [|not_in_list].
    apply (columns_setitem_acc _ _ ["event_date"; "hour_of_day"]); [|not_in_list].
    apply (columns_setitem_acc _ _ ["event_date"]); [|not_in_list].
    apply (columns_setitem_acc _ _ []); [|not_in_list].
    exact H0. }
  split; [exact Hcols|]. split; [|split; [|split; [|split]]].
  - intros Hfresh. rewrite Hcols. f_equal. unfold derived_columns.
    rewrite !filter_cons, filter_nil.
    rewrite !decide_True by (apply Hfresh; unfold derived_columns; in_list).
    reflexivity.
  - intros l Hl. apply engineered_has. now apply list_elem_of_further.
  - intros l H1 H2. split; [now apply Hother|].
    unfold getitem. now rewrite Hother.
  - intros l Hl. unfold getitem. rewrite Hother; [done| |].
    + intros ->. repeat (apply elem_of_cons in Hl as [Hl|Hl]; [done|]).
      now apply elem_of_nil in Hl.
    + repeat (apply elem_of_cons in Hl as [->|Hl]; [not_in_list|]).
      now apply elem_of_nil in Hl.
  - intros n Hn.
    assert (Hlts : length ts = n).
    { rewrite (to_datetime_length _ _ Hts). eapply Hn, getitem_elem, Hts0. }
    assert (Hllv : length lv = n) by (eapply Hn, getitem_elem, Hlv).
    assert (Hlmsg : length msg = n) by (eapply Hn, getitem_elem, Hmsg).
    assert (Hlsvc : length svc = n) by (eapply Hn, getitem_elem, Hsvc).
    assert (Hrect : rectangular (engineered df ts lv msg svc) n).
    { unfold engineered.
      repeat apply setitem_rectangular; try done.
      - unfold dt_date. now rewrite length_fmap.
      - now rewrite dt_hour_length.
      - unfold is_error_of. now rewrite length_fmap.
      - unfold map_log_level. now rewrite numeric_column_length, length_fmap.
      - unfold message_length_of. now rewrite length_fmap.
      - now rewrite map_series_length. }
    split; [exact Hrect|].
    assert (Hne : df ≠ []).
    { intros ->. apply getitem_elem in Hts0. now apply elem_of_nil in Hts0. }
    rewrite (nrows_rectangular df n Hne Hn).
    apply nrows_rectangular; [|exact Hrect].
    intros E. apply (f_equal columns) in E. rewrite Hcols in E.
    destruct df; [done|discriminate].
Qed.


(** ** The per-service error rate *)

Lemma list_find_key {A : Type} (g : value → A) (ks : list value) (k : value) :
  k ∈ ks →
  ∃ j, list_find (λ kf : value * A, kf.1 = k) ((λ k', (k', g k')) <$> ks)
       = Some (j, (k, g k)).
Proof.
  induction 1 as [k ks|k k' ks _ [j IH]]; rewrite fmap_cons; simpl.
  - exists 0%nat. now rewrite decide_True.
  - destruct (decide (k' = k)) as [->|Hne]; [now exists 0%nat|].
    exists (S j). now rewrite IH.
Qed.

Lemma map_series_present (keys vals : column) i k :
  keys !! i = Some k → isna k = false →
  map_series (groupby_mean keys vals) keys !! i
  = Some (VFloat (mean (group_values keys vals k))).
Proof.
  intros Hi Hk. unfold map_series. rewrite list_lookup_fmap, Hi. simpl.
  unfold groupby_mean.
  destruct (list_find_key (λ k, mean (group_values keys vals k)) (group_keys keys) k)
    as [j ->]; [|done].
  unfold group_keys. apply elem_of_remove_dups, list_elem_of_filter.
  split; [done|]. eapply list_elem_of_lookup_2, Hi.
Qed.

Lemma map_series_missing (keys vals : column) i k :
  keys !! i = Some k → isna k = true →
  map_series (groupby_mean keys vals) keys !! i = Some VNaN.
Proof.
  intros Hi Hk. unfold map_series. rewrite list_lookup_fmap, Hi. simpl.
  destruct (list_find _ _) as [[j [k' f]]|] eqn:E; [|done].
  apply list_find_Some in E as (Hj & Hk' & _). simpl in Hk'. subst k'.
  apply list_elem_of_lookup_2 in Hj. unfold groupby_mean in Hj.
  apply list_elem_of_fmap in Hj as (k0 & [= <- _] & Hin).
  unfold group_keys in Hin.
  apply elem_of_remove_dups, list_elem_of_filter in Hin as [Hna _]. congruence.
Qed.

(** C1, as the code has it.  In the engineered frame every column
    labelled [service_error_rate] is one column [rate]; on a row whose
    [service] is present, [rate] is the mean of [is_error] over exactly the
    rows of the batch with that [service]; on a row whose [service] is
    missing, [rate] is missing; two rows with the same [service] cell have
    the same [rate] cell.  The rate is computed from the columns of the
    batch alone. *)
Theorem service_error_rate_group_mean df out :
  engineer df = Ok out →
  ∃ svc ie rate,
    getitem df "service" = Ok svc ∧ getitem out "is_error" = Ok ie
    ∧ "service_error_rate" ∈ columns out
    ∧ (∀ c', ("service_error_rate", c') ∈ out → c' = rate)
    ∧ rate = map_series (groupby_mean svc ie) svc
    ∧ length rate = length svc
    ∧ (∀ i k, svc !! i = Some k → isna k = false →
         rate !! i = Some (VFloat (mean (group_values svc ie k))))
    ∧ (∀ i k, svc !! i = Some k → isna k = true → rate !! i = Some VNaN)
    ∧ (∀ i j, svc !! i = svc !! j → rate !! i = rate !! j).
Proof.
  intros H.
  apply engineer_inv in H
    as (ts0 & ts & lv & msg & svc & _ & _ & _ & _ & Hsvc & -> & Hie).
  exists svc, (is_error_of lv), (map_series (groupby_mean svc (is_error_of lv)) svc).
  split; [done|]. split; [done|]. split; [|split; [|split; [|split; [|split; [|split]]]]].
  - apply engineered_has. in_list.
  - intros c' Hc'. now apply engineered_columns in Hc' as (_ & _ & _ & _ & _ & ->).
  - done.
  - apply map_series_length.
  - intros i k. apply map_series_present.
  - intros i k. apply map_series_missing.
  - intros i j Hij. unfold map_series. now rewrite !list_lookup_fmap, Hij.
Qed.

(** ** The type fixes *)

Lemma coerce_apply_fixes df : coerce df = apply_fixes type_fixes df.
Proof.
  unfold coerce, type_fixes, apply_fixes.
  repeat (destruct (fix_column _ _ _); [cbn [mbind result_bind]|reflexivity]).
  reflexivity.
Qed.

Lemma is_ok_bind {A B : Type} (r : result A) (k : A → result B) :
  is_ok (r ≫= k) = false ↔ is_ok r = false ∨ ∃ a, r = Ok a ∧ is_ok (k a) = false.
Proof.
  destruct r as [a|e]; simpl.
  - split; [eauto|]. intros [?|(a' & [= <-] & H)]; done.
  - split; auto.
Qed.

Lemma to_datetime_raise c v :
  v ∈ c → is_ok (to_datetime1 v) = false → is_ok (to_datetime c) = false.
Proof. apply mapM_result_raise. Qed.

Lemma to_date_raise c v :
  v ∈ c → is_ok (to_datetime1 v) = false → is_ok (to_date c) = false.
Proof.
  intros Hv Hf. unfold to_date. apply is_ok_bind. left.
  eapply to_datetime_raise; eauto.
Qed.

(** A conversion of the table raises on a column that holds a cell its
    cell conversion raises on. *)
Lemma type_fix_raise l f g c v :
  (l, f) ∈ type_fixes → cell_coercion l = Some g →
  v ∈ c → is_ok (g v) = false → is_ok (f c) = false.
Proof.
  intros Hin Hg Hv Hf. unfold type_fixes in Hin.
  repeat (apply elem_of_cons in Hin as [[= -> ->]|Hin];
          [injection Hg as <-;
           first [ eapply to_datetime_raise; eauto
                 | eapply to_date_raise; eauto
                 | eapply mapM_result_raise; eauto ]|]).
  now apply elem_of_nil in Hin.
Qed.

Lemma fix_column_other l f df df' l' :
  fix_column l f df = Ok df' → l ≠ l' → cols_named l' df' = cols_named l' df.
Proof.
  unfold fix_column. intros H Hne.
  apply bind_Ok in H as (c0 & _ & H). apply bind_Ok in H as (c1 & _ & H).
  injection H as <-. now apply cols_named_setitem_ne.
Qed.

Lemma fix_column_raise l f df :
  (∀ c, getitem df l = Ok c → is_ok (f c) = false) →
  is_ok (fix_column l f df) = false.
Proof.
  intros H. unfold fix_column. apply is_ok_bind.
  destruct (getitem df l) as [c|e] eqn:E; [right|now left].
  exists c. split; [done|]. apply is_ok_bind. left. now apply H.
Qed.

(** The fixes run in order and stop at the first raise; a fix of another
    label leaves the columns labelled [l] alone. *)
Lemma apply_fixes_raise fixes df l f :
  NoDup fixes.*1 → (l, f) ∈ fixes →
  (∀ c, getitem df l = Ok c → is_ok (f c) = false) →
  is_ok (apply_fixes fixes df) = false.
Proof.
  intros Hnd; revert df.
  induction fixes as [|[l0 f0] fixes IH]; intros df Hin Hbad.
  - now apply elem_of_nil in Hin.
  - apply NoDup_cons in Hnd as [Hl0 Hnd]. simpl. apply is_ok_bind.
    apply elem_of_cons in Hin as [[= <- <-]|Hin].
    + left. now apply fix_column_raise.
    + destruct (fix_column l0 f0 df) as [df'|e] eqn:E; [right|now left].
      exists df'. split; [done|]. apply IH; [done..|].
      intros c Hc. apply Hbad. unfold getitem in *.
      rewrite <- (fix_column_other _ _ _ _ l E); [done|].
      intros ->. apply Hl0. apply list_elem_of_fmap. now exists (l, f).
Qed.

Lemma NoDup_type_fixes : NoDup type_fixes.*1.
Proof.
  unfold type_fixes. simpl.
  repeat (apply NoDup_cons; split; [not_in_list|]). apply NoDup_nil_2.
Qed.

Lemma cell_coercion_type_fix l g : cell_coercion l = Some g → ∃ f, (l, f) ∈ type_fixes.
Proof.
  unfold cell_coercion, type_fixes. intros H.
  repeat case_bool_decide; try discriminate;
    repeat match goal with
           | H : _ ∈ _ :: _ |- _ => apply elem_of_cons in H as [->|H]
           | H : _ ∈ [] |- _ => now apply elem_of_nil in H
           end; subst; eexists; in_list.
Qed.

Lemma uncoercible_raise df : uncoercible df → is_ok (coerce df) = false.
Proof.
  intros (l & c & v & g & Hc & Hv & Hg & Hf).
  destruct (cell_coercion_type_fix l g Hg) as [f Hfix].
  rewrite coerce_apply_fixes.
  apply (apply_fixes_raise type_fixes df l f NoDup_type_fixes Hfix).
  intros c' Hc'. apply (getitem_unique _ _ _ c) in Hc'; [|done]. subst c'.
  eapply type_fix_raise; eauto.
Qed.


(** ** The reader *)

Lemma has_dot_app (a b : string) : has_dot (a +:+ b) = has_dot a || has_dot b.
Proof.
  induction a as [|x a IH]; simpl; [done|]. now rewrite IH, orb_assoc.
Qed.

(** The de-duplication loop returns the name it was given or a name with a
    full stop. *)
Lemma fresh_name_cases fuel (counts : gmap string nat) col cur :
  (fresh_name fuel counts col cur).1 = col
  ∨ has_dot (fresh_name fuel counts col cur).1 = true.
Proof.
  revert counts col cur. induction fuel as [|fuel IH]; intros counts col cur.
  - left. now destruct cur.
  - destruct cur as [|cur]; [now left|]. right. simpl.
    match goal with
    | |- has_dot (fresh_name fuel ?m ?c ?k).1 = true =>
        destruct (IH m c k) as [->|H]; [|exact H]
    end.
    rewrite !has_dot_app. simpl. apply orb_true_r.
Qed.

Lemma dedup_names_length (counts : gmap string nat) names :
  length (dedup_names counts names) = length names.
Proof.
  revert counts. induction names as [|col names IH]; intros counts; [done|].
  cbn [dedup_names]. destruct (fresh_name _ _ _ _) as [col' counts'].
  cbn [length]. f_equal. apply IH.
Qed.

(** A label without a full stop that the de-duplication puts at position
    [j] was the header's label at position [j]. *)
Lemma dedup_names_plain (counts : gmap string nat) names j l :
  dedup_names counts names !! j = Some l → has_dot l = false →
  names !! j = Some l.
Proof.
  revert counts j. induction names as [|col names IH]; intros counts j Hj Hl; [done|].
  cbn [dedup_names] in Hj.
  pose proof (fresh_name_cases (S (size counts)) counts col
                (default 0%nat (counts !! col))) as Hc.
  destruct (fresh_name _ _ _ _) as [col' counts'] eqn:E. simpl in Hc.
  destruct j as [|j]; simpl in *.
  - injection Hj as ->. destruct Hc as [->|Hc]; [done|congruence].
  - eauto.
Qed.

Lemma fill_unnamed_lookup names j l :
  fill_unnamed names !! j = Some l →
  names !! j = Some l ∨ l = "Unnamed: " +:+ Z_repr (Z.of_nat j).
Proof.
  unfold fill_unnamed. rewrite list_lookup_imap.
  destruct (names !! j) as [l0|]; simpl; [|done].
  case_bool_decide; intros [= <-]; auto.
Qed.

(** Every column of the frame read from a grid is the typing of the
    fields of one position, under the label the header puts there. *)
Lemma read_csv_columns (t : csv) df l c :
  read_csv t = Ok df → (l, c) ∈ df →
  ∃ j, dedup_names ∅ (fill_unnamed (header t)) !! j = Some l
       ∧ c = infer_column ((λ r, default "" (r !! j)) <$> records t).
Proof.
  unfold read_csv. case_bool_decide; [done|].
  destruct (forallb _ _); [|done]. intros [= <-] Hin.
  apply elem_of_lookup_imap in Hin as (j & l' & [= -> ->] & Hj). eauto.
Qed.

Lemma infer_column_length fields : length (infer_column fields) = length fields.
Proof.
  unfold infer_column.
  repeat (destruct (forallb _ fields)); apply length_fmap.
Qed.

Lemma read_csv_rectangular (t : csv) df :
  read_csv t = Ok df → rectangular df (length (records t)).
Proof.
  intros H l c Hin. destruct (read_csv_columns t df l c H Hin) as (j & _ & ->).
  now rewrite infer_column_length, length_fmap.
Qed.

Lemma normalize_rectangular df n : rectangular df n → rectangular (normalize df) n.
Proof.
  intros H l c Hin. unfold normalize in Hin.
  apply list_elem_of_fmap in Hin as ([l0 c0] & [= -> ->] & Hin). eauto.
Qed.

(** An empty field is read as a missing cell, whatever the column's type. *)
Lemma infer_column_empty fields i :
  fields !! i = Some "" → infer_column fields !! i = Some VNaN.
Proof.
  intros Hi. unfold infer_column.
  destruct (forallb (λ s, bool_decide (is_Some (parse_int64 s))) fields) eqn:E1.
  { rewrite forallb_forall in E1.
    assert (Hin : In "" fields) by (eapply list_elem_of_In, list_elem_of_lookup_2, Hi).
    apply E1, bool_decide_eq_true in Hin. now destruct Hin. }
  destruct (forallb (λ s, is_na s || _) fields) eqn:E2.
  { now rewrite list_lookup_fmap, Hi. }
  destruct (forallb (λ s, bool_decide (is_Some (parse_bool s))) fields) eqn:E3.
  { rewrite forallb_forall in E3.
    assert (Hin : In "" fields) by (eapply list_elem_of_In, list_elem_of_lookup_2, Hi).
    apply E3, bool_decide_eq_true in Hin. now destruct Hin. }
  now rewrite list_lookup_fmap, Hi.
Qed.

(** ** The hand-off *)

Lemma validate_inv df df' : validate df = Ok df' → df' = df.
Proof. unfold validate. destruct (forallb _ _); [now intros [= <-]|done]. Qed.

Lemma row_length df i : length (row df i) = length df.
Proof. apply length_fmap. Qed.

(** The reader accepts what [to_csv] writes for a frame with a column. *)
Lemma read_csv_to_csv_Ok df : df ≠ [] → ∃ df', read_csv (to_csv df) = Ok df'.
Proof.
  intros Hne. unfold read_csv. cbn [header records to_csv].
  rewrite bool_decide_eq_false_2 by (destruct df; done).
  destruct (forallb _ _) eqn:E; [eauto|]. exfalso.
  apply not_true_iff_false in E. apply E. apply forallb_forall.
  intros r (i & -> & _)%list_elem_of_In%list_elem_of_fmap.
  apply Nat.leb_le. unfold columns. now rewrite !length_fmap, row_length.
Qed.

(** The field [to_csv] writes at record [i], position [j]. *)
Lemma to_csv_field df n i j l c v :
  rectangular df n → df !! j = Some (l, c) → c !! i = Some v →
  ((λ r, default "" (r !! j)) <$> records (to_csv df)) !! i
  = Some (csv_field v).
Proof.
  intros Hrect Hj Hi. cbn [records to_csv].
  assert (Hn : nrows df = n).
  { apply nrows_rectangular; [|done]. now intros ->. }
  assert (Hlt : (i < n)%nat).
  { rewrite <- (Hrect l c) by (eapply list_elem_of_lookup_2, Hj).
    eapply lookup_lt_Some, Hi. }
  rewrite !list_lookup_fmap, Hn, lookup_seq_lt by done. simpl.
  unfold row. rewrite !list_lookup_fmap, Hj. simpl. now rewrite Hi.
Qed.

(** A column labelled [log_level_encoded] in the frame read back from the
    hand-off is the reading of a column so labelled in the frame written. *)
Lemma read_back_plain df df' l c :
  has_dot l = false → (∀ n, l ≠ "Unnamed: " +:+ n) →
  read_csv (to_csv df) = Ok df' → (l, c) ∈ df' →
  ∃ j c0, df !! j = Some (l, c0)
          ∧ c = infer_column ((λ r, default "" (r !! j)) <$> records (to_csv df)).
Proof.
  intros Hdot Hun Hread Hin.
  destruct (read_csv_columns _ _ _ _ Hread Hin) as (j & Hj & ->).
  apply dedup_names_plain in Hj; [|done].
  apply fill_unnamed_lookup in Hj as [Hj|Hj]; [|now apply Hun in Hj].
  cbn [header to_csv] in Hj. unfold columns in Hj.
  rewrite list_lookup_fmap in Hj.
  destruct (df !! j) as [[l0 c0]|] eqn:E; [|done].
  injection Hj as ->. eauto.
Qed.

Lemma astype_int64_NaN c i : c !! i = Some VNaN → is_ok (astype_int64 c) = false.
Proof.
  intros Hi. eapply mapM_result_raise; [eapply list_elem_of_lookup_2, Hi|done].
Qed.

Lemma transform_logs_inv (w : world) (t : csv) :
  transform_logs w = Ok t →
  ∃ raw out, read_csv (gcs_object w) = Ok raw
             ∧ validate (normalize raw) = Ok (normalize raw)
             ∧ engineer (normalize raw) = Ok out ∧ t = to_csv out.
Proof.
  unfold transform_logs. intros H.
  apply bind_Ok in H as (raw & Hraw & H). cbv beta zeta in H.
  apply bind_Ok in H as (df & Hdf & H).
  pose proof (validate_inv _ _ Hdf) as ->.
  apply bind_Ok in H as (out & Hout & H). injection H as <-.
  exists raw, out. done.
Qed.

(** C10.  When the batch has a row whose [log_level] is none of ["INFO"],
    ["WARN"], ["ERROR"], the DAG run fails and hands nothing to the
    warehouse.  If the transform itself succeeds, its hand-off is read
    back, every column labelled [log_level_encoded] in the frame read back
    is missing on that row, the integer cast of such a column raises, and
    so the type fixes raise: the run fails in the load task, before the
    load. *)
Theorem unmapped_level_fails_run (w : world) raw (lv : column) i v :
  read_csv (gcs_object w) = Ok raw →
  getitem (normalize raw) "log_level" = Ok lv →
  lv !! i = Some v →
  v ≠ VStr "INFO" → v ≠ VStr "WARN" → v ≠ VStr "ERROR" →
  (∃ task e, (run_dag w).2 = Failed task e)
  ∧ bq_loads (run_dag w).1 = bq_loads w
  ∧ ∀ t, transform_logs w = Ok t →
      ∃ df e,
        read_csv t = Ok df
        ∧ (∀ c, ("log_level_encoded", c) ∈ df →
             c !! i = Some VNaN ∧ is_ok (astype_int64 c) = false)
        ∧ coerce df = Raise e
        ∧ run_dag w = (World (gcs_object w) (Some t) (bq_loads w),
                       Failed "load_to_bigquery" e).
Proof.
  intros Hraw Hlv Hi H1 H2 H3.
  assert (Hmain : ∀ t, transform_logs w = Ok t →
            ∃ df e,
              read_csv t = Ok df
              ∧ (∀ c, ("log_level_encoded", c) ∈ df →
                   c !! i = Some VNaN ∧ is_ok (astype_int64 c) = false)
              ∧ coerce df = Raise e
              ∧ run_dag w = (World (gcs_object w) (Some t) (bq_loads w),
                             Failed "load_to_bigquery" e)).
  { intros t Ht. pose proof Ht as Ht'.
    apply transform_logs_inv in Ht' as (raw' & out & Hraw' & _ & Hout & ->).
    rewrite Hraw in Hraw'. injection Hraw' as <-.
    pose proof Hout as Hinv.
    apply engineer_inv in Hinv
      as (ts0 & ts & lv' & msg & svc & Hts0 & _ & Hlv' & _ & _ & Heq & _).
    rewrite Hlv in Hlv'. injection Hlv' as <-.
    assert (Hrect : rectangular out (length (records (gcs_object w)))).
    { eapply (engineer_frame _ _ Hout).
      apply normalize_rectangular, read_csv_rectangular, Hraw. }
    assert (Hne : out ≠ []).
    { intros ->. apply (f_equal columns) in Heq.
      pose proof (engineered_has (normalize raw) ts lv msg svc "timestamp") as Hin.
      rewrite <- Heq in Hin. specialize (Hin ltac:(in_list)).
      now apply elem_of_nil in Hin. }
    destruct (read_csv_to_csv_Ok out Hne) as [df Hdf].
    assert (Hcol : ∀ c, ("log_level_encoded", c) ∈ df →
              c !! i = Some VNaN ∧ is_ok (astype_int64 c) = false).
    { intros c Hc.
      destruct (read_back_plain out df "log_level_encoded" c) as (j & c0 & Hj & ->);
        [reflexivity|intros n; discriminate|done..|].
      assert (Hc0 : c0 = map_log_level lv).
      { apply list_elem_of_lookup_2 in Hj. rewrite Heq in Hj.
        now apply engineered_columns in Hj as (_ & _ & _ & -> & _). }
      assert (HNaN : c0 !! i = Some VNaN).
      { rewrite Hc0. unfold map_log_level. apply numeric_column_None.
        rewrite list_lookup_fmap, Hi. simpl. f_equal.
        now apply log_level_lookup_other. }
      assert (Hcell : infer_column ((λ r, default "" (r !! j)) <$> records (to_csv out))
                        !! i = Some VNaN).
      { apply infer_column_empty.
        now rewrite (to_csv_field out _ i j _ c0 VNaN Hrect Hj HNaN). }
      split; [exact Hcell|]. eapply astype_int64_NaN, Hcell. }
    assert (Hfail : is_ok (coerce df) = false).
    { rewrite coerce_apply_fixes.
      apply (apply_fixes_raise type_fixes df "log_level_encoded" astype_int64
               NoDup_type_fixes); [unfold type_fixes; in_list|].
      intros c Hc%getitem_elem. now apply Hcol. }
    destruct (coerce df) as [df2|e] eqn:E; [discriminate|].
    exists df, e. repeat (split; [done|]).
    unfold run_dag. rewrite Ht. unfold load_to_bigquery. cbn [xcom mbind result_bind].
    rewrite Hdf. cbn [mbind result_bind]. now rewrite E. }
  destruct (transform_logs w) as [t|e] eqn:Ht.
  - destruct (Hmain t eq_refl) as (df & e & _ & _ & _ & Hrun).
    split; [rewrite Hrun; eauto|]. split; [now rewrite Hrun|]. exact Hmain.
  - unfold run_dag. rewrite Ht. split; [eauto|]. split; [done|]. done.
Qed.

(** ** Reading back what was written *)

Lemma parse_int_repr (z : Z) : parse_int (Z_repr z) = Some z.
Proof.
  unfold parse_int, Z_repr. rewrite NilZero.isi.
  - simpl. f_equal. apply DecimalZ.of_to.
  - destruct z; simpl; try discriminate.
    intros [= H]. now apply DecimalPos.Unsigned.to_uint_nonnil in H.
  - destruct z; simpl; try discriminate.
    intros [= H]. now apply DecimalPos.Unsigned.to_uint_nonnil in H.
Qed.

Lemma parse_int64_Some s z :
  parse_int64 s = Some z → parse_int s = Some z ∧ - 2 ^ 63 ≤ z < 2 ^ 63.
Proof.
  unfold parse_int64. destruct (parse_int s) as [z'|]; simpl; [|done].
  case_bool_decide; [now intros [= <-]|done].
Qed.

Lemma parse_int64_repr z : - 2 ^ 63 ≤ z < 2 ^ 63 → parse_int64 (Z_repr z) = Some z.
Proof.
  intros H. unfold parse_int64. rewrite parse_int_repr. simpl.
  now rewrite bool_decide_eq_true_2.
Qed.

Lemma parse_int64_None s : parse_int s = None → parse_int64 s = None.
Proof. unfold parse_int64. now intros ->. Qed.

Lemma forallb_false_ex {A : Type} (f : A → bool) (l : list A) :
  forallb f l = false ↔ ∃ x, x ∈ l ∧ f x = false.
Proof.
  induction l as [|a l IH]; simpl.
  - split; [done|]. intros (x & Hx & _). now apply elem_of_nil in Hx.
  - rewrite andb_false_iff, IH. split.
    + intros [H|(x & Hx & H)]; [exists a|exists x]; split; auto;
        [apply list_elem_of_here|now apply list_elem_of_further].
    + intros (x & [->|Hx]%elem_of_cons & H); eauto.
Qed.

Lemma forallb_fmap {A B : Type} (f : B → bool) (g : A → B) (l : list A) :
  forallb f (g <$> l) = forallb (f ∘ g) l.
Proof.
  induction l as [|a l IH]; [done|].
  rewrite fmap_cons. cbn [forallb]. now rewrite IH.
Qed.

Lemma forallb_true_ext {A : Type} (f : A → bool) (l : list A) :
  (∀ x, x ∈ l → f x = true) → forallb f l = true.
Proof.
  intros H. apply forallb_forall. intros x Hx%list_elem_of_In. auto.
Qed.

(** The reader types the text of a column it has typed as it typed it,
    when the numbers and truth values of the column are well formed. *)
Lemma infer_column_reprint (fields : list string) :
  (∀ v, v ∈ infer_column fields → field_ok v) →
  infer_column (csv_field <$> infer_column fields) = infer_column fields.
Proof.
  intros Hok. unfold infer_column at 2 3. unfold infer_column in Hok.
  destruct (forallb (λ s, bool_decide (is_Some (parse_int64 s))) fields) eqn:E1.
  { (* integers *)
    rewrite forallb_forall in E1.
    assert (Hz : ∀ s, s ∈ fields →
              parse_int64 (Z_repr (default 0 (parse_int64 s))) = parse_int64 s).
    { intros s Hs%list_elem_of_In%E1%bool_decide_eq_true. destruct Hs as [z Hs].
      rewrite Hs. simpl. apply parse_int64_repr. now apply parse_int64_Some in Hs. }
    unfold infer_column. rewrite <- !list_fmap_compose, forallb_fmap.
    rewrite forallb_true_ext.
    - apply list_fmap_ext. intros i s Hi. simpl.
      unfold csv_field. simpl. now rewrite Hz by (eapply list_elem_of_lookup_2, Hi).
    - intros s Hs. simpl. unfold csv_field. simpl. rewrite Hz by done.
      apply E1. now apply list_elem_of_In. }
  apply forallb_false_ex in E1 as (s1 & Hs1 & E1).
  apply bool_decide_eq_false in E1. rewrite <- eq_None_not_Some in E1.
  destruct (forallb (λ s, is_na s || bool_decide (is_Some (parse_number s))) fields) eqn:E2.
  { (* numbers with gaps *)
    rewrite forallb_forall in E2.
    set (cell := λ s, if is_na s then VNaN else from_option VFloat VNaN (parse_number s)) in *.
    assert (Hcell : ∀ s, s ∈ fields →
              (cell s = VNaN ∧ csv_field (cell s) = "")
              ∨ ∃ f, cell s = VFloat f ∧ csv_field (cell s) = float_repr f
                     ∧ field_ok (VFloat f)).
    { intros s Hs. pose proof (E2 s (proj1 (list_elem_of_In _ _) Hs)) as H.
      unfold cell. destruct (is_na s) eqn:Ena; [now left|]. simpl in H.
      apply bool_decide_eq_true in H as [f Hf]. right. exists f.
      rewrite Hf. simpl. split; [done|]. split; [done|].
      apply (Hok (VFloat f)). apply list_elem_of_fmap. exists s. split; [|done].
      unfold cell. now rewrite Ena, Hf. }
    unfold infer_column.
    rewrite (proj2 (forallb_false_ex _ _)).
    2:{ exists (csv_field (cell s1)). split.
        - apply list_elem_of_fmap. exists (cell s1). split; [done|].
          apply list_elem_of_fmap. eauto.
        - apply bool_decide_eq_false. rewrite <- eq_None_not_Some.
          destruct (Hcell s1 Hs1) as [[_ ->]|(f & _ & -> & _ & Hf & _)]; [done|].
          now apply parse_int64_None. }
    assert (Hnum : ∀ s, s ∈ fields →
              (if is_na (csv_field (cell s)) then VNaN
               else from_option VFloat VNaN (parse_number (csv_field (cell s))))
              = cell s
              ∧ is_na (csv_field (cell s))
                || bool_decide (is_Some (parse_number (csv_field (cell s)))) = true).
    { intros s Hs.
      destruct (Hcell s Hs) as [[-> ->]|(f & -> & -> & Hna & Hint & Hf)]; [done|].
      rewrite Hna. unfold parse_number. rewrite (parse_int64_None _ Hint), Hf.
      split; [done|]. simpl. first [done | now apply bool_decide_eq_true_2]. }
    rewrite forallb_true_ext.
    - rewrite <- !list_fmap_compose. apply list_fmap_ext. intros i s Hi. simpl.
      apply Hnum. eapply list_elem_of_lookup_2, Hi.
    - intros p (v & -> & (s & -> & Hs)%list_elem_of_fmap)%list_elem_of_fmap.
      now apply Hnum. }
  apply forallb_false_ex in E2 as (s2 & Hs2 & E2).
  apply orb_false_iff in E2 as [Ena2 E2].
  apply bool_decide_eq_false in E2. rewrite <- eq_None_not_Some in E2.
  destruct (forallb (λ s, bool_decide (is_Some (parse_bool s))) fields) eqn:E3.
  { (* truth values *)
    rewrite forallb_forall in E3.
    set (cell := λ s, VBool (default false (parse_bool s))) in *.
    assert (Hcell : ∀ s, s ∈ fields →
              ∃ b, cell s = VBool b
                   ∧ csv_field (cell s) = (if b then "True" else "False")
                   ∧ float_parse (if b then "True" else "False") = None).
    { intros s Hs. pose proof (E3 s (proj1 (list_elem_of_In _ _) Hs)) as H.
      apply bool_decide_eq_true in H as [b Hb]. exists b. unfold cell.
      rewrite Hb. simpl. split; [done|]. split; [now destruct b|].
      apply (Hok (VBool b)). apply list_elem_of_fmap. exists s. split; [|done].
      unfold cell. now rewrite Hb. }
    unfold infer_column.
    rewrite (proj2 (forallb_false_ex _ _)).
    2:{ exists (csv_field (cell s1)). split.
        - apply list_elem_of_fmap. exists (cell s1). split; [done|].
          apply list_elem_of_fmap. eauto.
        - destruct (Hcell s1 Hs1) as (b & _ & -> & _). now destruct b. }
    rewrite (proj2 (forallb_false_ex _ _)).
    2:{ exists (csv_field (cell s1)). split.
        - apply list_elem_of_fmap. exists (cell s1). split; [done|].
          apply list_elem_of_fmap. eauto.
        - destruct (Hcell s1 Hs1) as (b & _ & -> & Hb).
          apply orb_false_iff. split; [now destruct b|].
          apply bool_decide_eq_false. rewrite <- eq_None_not_Some.
          unfold parse_number. now destruct b. }
    rewrite forallb_true_ext.
    - rewrite <- !list_fmap_compose. apply list_fmap_ext. intros i s Hi. simpl.
      destruct (Hcell s) as (b & Hb & -> & _); [eapply list_elem_of_lookup_2, Hi|].
      rewrite Hb. now destruct b.
    - intros p (v & -> & (s & -> & Hs)%list_elem_of_fmap)%list_elem_of_fmap.
      destruct (Hcell s Hs) as (b & _ & -> & _). now destruct b. }
  (* texts *)
  apply forallb_false_ex in E3 as (s3 & Hs3 & E3).
  apply bool_decide_eq_false in E3. rewrite <- eq_None_not_Some in E3.
  set (cell := λ s, if is_na s then VNaN else VStr s) in *.
  assert (Hcell : ∀ s, csv_field (cell s) = if is_na s then "" else s).
  { intros s. unfold cell. now destruct (is_na s). }
  assert (Hin : ∀ s, s ∈ fields → csv_field (cell s) ∈ csv_field <$> (cell <$> fields)).
  { intros s Hs. apply list_elem_of_fmap. exists (cell s). split; [done|].
    apply list_elem_of_fmap. eauto. }
  unfold infer_column.
  rewrite (proj2 (forallb_false_ex _ _)).
  2:{ exists (csv_field (cell s1)). split; [now apply Hin|].
      apply bool_decide_eq_false. rewrite <- eq_None_not_Some, Hcell.
      now destruct (is_na s1). }
  rewrite (proj2 (forallb_false_ex _ _)).
  2:{ exists (csv_field (cell s2)). split; [now apply Hin|].
      rewrite Hcell, Ena2. apply orb_false_iff. split; [done|].
      apply bool_decide_eq_false. now rewrite <- eq_None_not_Some. }
  rewrite (proj2 (forallb_false_ex _ _)).
  2:{ exists (csv_field (cell s3)). split; [now apply Hin|].
      apply bool_decide_eq_false. rewrite <- eq_None_not_Some, Hcell.
      now destruct (is_na s3). }
  rewrite <- !list_fmap_compose. apply list_fmap_ext. intros i s Hi. simpl.
  rewrite Hcell. unfold cell. destruct (is_na s) eqn:E; [done|]. now rewrite E.
Qed.

Lemma fill_unnamed_id names : "" ∉ names → fill_unnamed names = names.
Proof.
  intros H. unfold fill_unnamed. apply list_eq. intros j.
  rewrite list_lookup_imap. destruct (names !! j) as [l|] eqn:E; [|done].
  simpl. rewrite bool_decide_eq_false_2; [done|].
  intros ->. apply H. eapply list_elem_of_lookup_2, E.
Qed.

(** Distinct labels pass the de-duplication unchanged. *)
Lemma dedup_names_NoDup (counts : gmap string nat) names :
  NoDup names → (∀ l, l ∈ names → counts !! l = None) →
  dedup_names counts names = names.
Proof.
  intros Hnd; revert counts.
  induction Hnd as [|col names Hcol Hnd IH]; intros counts Hc; [done|].
  cbn [dedup_names]. rewrite (Hc col) by apply list_elem_of_here.
  cbn [default fresh_name]. f_equal. apply IH.
  intros l Hl. rewrite lookup_insert_ne; [apply Hc; now apply list_elem_of_further|].
  intros ->. done.
Qed.

(** The column of fields [to_csv] writes at position [j]. *)
Lemma to_csv_column df n j l c :
  rectangular df n → df !! j = Some (l, c) →
  (λ r, default "" (r !! j)) <$> records (to_csv df) = csv_field <$> c.
Proof.
  intros Hrect Hj. apply list_eq. intros i.
  assert (Hlen : length c = n) by (eapply Hrect, list_elem_of_lookup_2, Hj).
  assert (Hn : nrows df = n).
  { apply nrows_rectangular; [|done]. now intros ->. }
  destruct (c !! i) as [v|] eqn:Hi.
  - rewrite (to_csv_field df n i j l c v) by done.
    now rewrite list_lookup_fmap, Hi.
  - rewrite (list_lookup_fmap csv_field c i), Hi. simpl.
    apply lookup_ge_None. apply lookup_ge_None in Hi.
    cbn [records to_csv]. rewrite !length_fmap, length_seq. lia.
Qed.

(** What the reader makes of the hand-off of a frame with distinct,
    non-empty labels: each column is the typing of its own text. *)
Lemma read_csv_to_csv df n :
  df ≠ [] → rectangular df n → NoDup (columns df) → "" ∉ columns df →
  read_csv (to_csv df)
  = Ok (prod_map id (λ c, infer_column (csv_field <$> c)) <$> df).
Proof.
  intros Hne Hrect Hnd Hempty.
  destruct (read_csv_to_csv_Ok df Hne) as [df' Hdf']. rewrite Hdf'. f_equal.
  unfold read_csv in Hdf'. case_bool_decide; [done|].
  destruct (forallb _ _); [|done]. injection Hdf' as <-.
  change (header (to_csv df)) with (columns df).
  rewrite fill_unnamed_id, dedup_names_NoDup by done.
  apply list_eq. intros j. rewrite list_lookup_imap, list_lookup_fmap.
  unfold columns. rewrite list_lookup_fmap.
  destruct (df !! j) as [[l c]|] eqn:Hj; [|done]. simpl.
  pose proof (to_csv_column df n j l c Hrect Hj) as Hcol.
  cbn [records to_csv] in Hcol. now rewrite Hcol.
Qed.

(** * Further properties of the two callables *)


Lemma to_datetime1_Ok v v' :
  to_datetime1 v = Ok v' → (∃ t, v' = VTime t) ∨ v' = VNaT.
Proof.
  destruct v as [s|z|f|b| |t| |d]; simpl; repeat case_match;
    try discriminate; intros [= <-]; eauto.
Qed.

(** X2.  Lines 63-65.  When [engineer] returns, the column [timestamp] of
    its frame is the converted column; on a row that holds an instant,
    [event_date] is the date of the instant and [hour_of_day] holds its
    hour; on a row whose timestamp is missing, [event_date] is missing and
    [hour_of_day] is NaN.  No other kind of cell occurs. *)
Theorem event_date_and_hour_of_timestamp df out :
  engineer df = Ok out →
  ∃ ts0 ts,
    getitem df "timestamp" = Ok ts0 ∧ to_datetime ts0 = Ok ts
    ∧ getitem out "timestamp" = Ok ts
    ∧ (∀ c', ("event_date", c') ∈ out → c' = dt_date ts)
    ∧ (∀ c', ("hour_of_day", c') ∈ out → c' = dt_hour ts)
    ∧ ∀ i v, ts !! i = Some v →
        (∃ t, v = VTime t ∧ dt_date ts !! i = Some (VDate (ts_date t))
              ∧ holds_int (dt_hour ts !! i) (ts_hour t))
        ∨ (v = VNaT ∧ dt_date ts !! i = Some VNaT
           ∧ dt_hour ts !! i = Some VNaN).
Proof.
  intros H.
  apply engineer_inv in H
    as (ts0 & ts & lv & msg & svc & Hts0 & Hts & _ & _ & _ & -> & _).
  exists ts0, ts. split; [done|]. split; [done|]. split; [|split; [|split]].
  - unfold engineered. rewrite !getitem_setitem_ne by done.
    eapply getitem_setitem_eq, Hts0.
  - intros c' Hc'. now apply engineered_columns in Hc' as (-> & _).
  - intros c' Hc'. now apply engineered_columns in Hc' as (_ & -> & _).
  - intros i v Hi.
    assert (Hv : (∃ t, v = VTime t) ∨ v = VNaT).
    { apply list_elem_of_lookup_2 in Hi.
      apply list_elem_of_lookup_1 in Hi as [k Hk].
      destruct (ts0 !! k) as [v0|] eqn:E0.
      - destruct (mapM_result_lookup _ _ _ Hts k v0 E0) as (v' & Hv' & Hk').
        rewrite Hk in Hk'. injection Hk' as <-. eapply to_datetime1_Ok, Hv'.
      - apply lookup_ge_None in E0. apply lookup_lt_Some in Hk.
        rewrite (to_datetime_length _ _ Hts) in Hk. lia. }
    destruct Hv as [[t ->]| ->]; [left; exists t|right]; split; try done.
    + split.
      * unfold dt_date. now rewrite list_lookup_fmap, Hi.
      * unfold dt_hour. apply numeric_column_Some. now rewrite list_lookup_fmap, Hi.
    + split.
      * unfold dt_date. now rewrite list_lookup_fmap, Hi.
      * unfold dt_hour. apply numeric_column_None. now rewrite list_lookup_fmap, Hi.
Qed.


(** X4.  Line 63.  One cell of [timestamp] that [pd.to_datetime] raises
    on fails the whole batch: [transform_logs] raises, the run fails in the
    transform task, and nothing is handed to the warehouse.  No row is
    dropped and the rest of the batch is not processed. *)
Theorem bad_timestamp_aborts_run (w : world) raw (ts0 : column) v :
  read_csv (gcs_object w) = Ok raw →
  getitem (normalize raw) "timestamp" = Ok ts0 →
  v ∈ ts0 → is_ok (to_datetime1 v) = false →
  ∃ e, transform_logs w = Raise e
       ∧ run_dag w = (w, Failed "transform_logs_feature_engineering" e)
       ∧ bq_loads (run_dag w).1 = bq_loads w
       ∧ (validate (normalize raw) = Ok (normalize raw) →
          to_datetime ts0 = Raise e).
Proof.
  intros Hraw Hts0 Hv Hbad.
  assert (Hdt : is_ok (to_datetime ts0) = false)
    by (eapply to_datetime_raise; eauto).
  destruct (to_datetime ts0) as [ts|e0] eqn:Edt; [discriminate|].
  assert (Heng : engineer (normalize raw) = Raise e0).
  { unfold engineer. rewrite Hts0. cbn [mbind result_bind]. now rewrite Edt. }
  assert (Ht : ∃ e, transform_logs w = Raise e
                    ∧ (validate (normalize raw) = Ok (normalize raw) → e0 = e)).
  { unfold transform_logs. rewrite Hraw. cbn [mbind result_bind].
    destruct (validate (normalize raw)) as [df|e] eqn:Ev.
    - apply validate_inv in Ev as ->. cbn [mbind result_bind]. rewrite Heng.
      eauto.
    - exists e. split; [done|]. discriminate. }
  destruct Ht as (e & Ht & He). exists e. split; [done|].
  unfold run_dag. rewrite Ht. split; [done|]. split; [done|].
  intros Hv'. now rewrite (He Hv').
Qed.

Lemma group_values_is_error (svc lv : column) k :
  group_values svc (is_error_of lv) k
  = (λ kv : value * value,
       VInt (if bool_decide (kv.2 = VStr "ERROR") then 1 else 0))
    <$> filter (λ kv, kv.1 = k) (zip svc lv).
Proof.
  unfold group_values, is_error_of. revert lv.
  induction svc as [|k0 svc IH]; intros [|v lv]; try done.
  rewrite fmap_cons. cbn [zip zip_with]. rewrite !filter_cons. cbn [fst].
  destruct (decide (k0 = k)); rewrite ?fmap_cons; cbn [snd]; now rewrite <- IH.
Qed.

Lemma sum_ints_indicator (P : value * value → Prop) `{∀ x, Decision (P x)}
    (l : list (value * value)) :
  sum_ints ((λ kv, VInt (if bool_decide (P kv) then 1 else 0)) <$> l)
  = Z.of_nat (length (filter P l)).
Proof.
  induction l as [|x l IH]; [done|].
  rewrite fmap_cons, filter_cons. cbn [sum_ints foldr]. fold (sum_ints
    ((λ kv, VInt (if bool_decide (P kv) then 1 else 0)) <$> l)).
  rewrite IH. case_bool_decide; [rewrite decide_True by done|rewrite decide_False by done];
    simpl; lia.
Qed.

(** X5.  Lines 74-75.  On a row whose [service] is present, the rate is
    the float quotient of two counts over the rows of the batch with that
    service: the rows whose [log_level] is ["ERROR"], over all of them.
    The divisor is at least one, so the mean never divides by zero, and
    the dividend is at most the divisor. *)
Theorem service_error_rate_is_errors_over_rows df out n :
  engineer df = Ok out → rectangular df n →
  ∃ svc lv rate,
    getitem df "service" = Ok svc ∧ getitem df "log_level" = Ok lv
    ∧ (∀ c', ("service_error_rate", c') ∈ out → c' = rate)
    ∧ ∀ i k, svc !! i = Some k → isna k = false →
        let rows := filter (λ kv : value * value, kv.1 = k) (zip svc lv) in
        let errors := filter (λ kv : value * value, kv.2 = VStr "ERROR") rows in
        (0 < length rows)%nat ∧ (length errors ≤ length rows)%nat
        ∧ rate !! i
          = Some (VFloat (float_div (float_of_Z (Z.of_nat (length errors)))
                                    (float_of_Z (Z.of_nat (length rows))))).
Proof.
  intros H Hrect.
  apply engineer_inv in H
    as (ts0 & ts & lv & msg & svc & _ & _ & Hlv & _ & Hsvc & -> & _).
  exists svc, lv, (map_series (groupby_mean svc (is_error_of lv)) svc).
  split; [done|]. split; [done|]. split.
  { intros c' Hc'. now apply engineered_columns in Hc' as (_ & _ & _ & _ & _ & ->). }
  intros i k Hi Hk rows errors.
  assert (Hlen : length lv = length svc).
  { rewrite (Hrect _ _ (getitem_elem _ _ _ Hlv)).
    now rewrite (Hrect _ _ (getitem_elem _ _ _ Hsvc)). }
  split; [|split].
  - destruct (lv !! i) as [v|] eqn:Ev.
    + assert (Hin : (k, v) ∈ rows).
      { apply list_elem_of_filter. split; [done|].
        apply (list_elem_of_lookup_2 _ i). apply lookup_zip_with_Some. eauto. }
      destruct rows; [now apply elem_of_nil in Hin|simpl; lia].
    + apply lookup_ge_None in Ev. apply lookup_lt_Some in Hi. lia.
  - apply length_filter.
  - rewrite (map_series_present _ _ _ _ Hi Hk). do 2 f_equal. unfold mean.
    rewrite group_values_is_error, length_fmap.
    now rewrite (sum_ints_indicator (λ kv, kv.2 = VStr "ERROR")).
Qed.

(** X6.  Lines 51-80.  The text [transform_logs] returns has one record
    per record of the downloaded object, each record has one field per
    header label, and the header is the normalised labels of the input
    followed by the derived labels the input did not carry. *)
Theorem transform_logs_keeps_records (w : world) (t : csv) :
  transform_logs w = Ok t →
  ∃ raw,
    read_csv (gcs_object w) = Ok raw
    ∧ header t
      = columns (normalize raw)
        ++ filter (λ l, l ∉ columns (normalize raw)) derived_columns
    ∧ length (records t) = length (records (gcs_object w))
    ∧ ∀ r, r ∈ records t → length r = length (header t).
Proof.
  intros H. apply transform_logs_inv in H as (raw & out & Hraw & _ & Hout & ->).
  exists raw. split; [done|].
  pose proof (engineer_frame _ _ Hout) as (Hcols & _ & _ & _ & _ & Hrect).
  destruct (Hrect (length (records (gcs_object w)))) as [Hr Hn].
  { apply normalize_rectangular, read_csv_rectangular, Hraw. }
  split; [exact Hcols|]. split.
  - cbn [records to_csv]. rewrite length_fmap, length_seq, Hn.
    apply nrows_rectangular.
    + intros E. apply engineer_inv in Hout as (? & ? & ? & ? & ? & Hts & _).
      rewrite E in Hts. discriminate.
    + apply normalize_rectangular, read_csv_rectangular, Hraw.
  - intros r (i & -> & _)%list_elem_of_fmap. cbn [header to_csv].
    unfold columns. now rewrite !length_fmap, row_length.
Qed.

(** ** What the type fixes return *)

Lemma fix_column_inv l f df df' :
  fix_column l f df = Ok df' →
  ∃ c c', getitem df l = Ok c ∧ f c = Ok c' ∧ df' = setitem df l c'.
Proof.
  unfold fix_column. intros H.
  apply bind_Ok in H as (c & Hc & H). apply bind_Ok in H as (c' & Hc' & H).
  injection H as <-. eauto.
Qed.

Lemma apply_fixes_inv fixes df out :
  NoDup fixes.*1 → apply_fixes fixes df = Ok out →
  columns out = columns df
  ∧ (∀ l, l ∉ fixes.*1 → cols_named l out = cols_named l df)
  ∧ ∀ l f, (l, f) ∈ fixes →
      ∃ c c', getitem df l = Ok c ∧ f c = Ok c' ∧ getitem out l = Ok c'.
Proof.
  intros Hnd; revert df.
  induction fixes as [|[l0 f0] fixes IH]; intros df H.
  - injection H as <-. split; [done|]. split; [done|].
    intros l f Hin. now apply elem_of_nil in Hin.
  - apply NoDup_cons in Hnd as [Hl0 Hnd]. cbn [apply_fixes] in H.
    apply bind_Ok in H as (df1 & Hfix & H).
    pose proof (fix_column_inv _ _ _ _ Hfix) as (c & c' & Hc & Hc' & ->).
    destruct (IH Hnd _ H) as (Hcols & Hother & Hfixed).
    split; [|split].
    + rewrite Hcols, columns_setitem, bool_decide_eq_true_2; [done|].
      eapply elem_columns, getitem_elem, Hc.
    + intros l Hl. rewrite fmap_cons, not_elem_of_cons in Hl. destruct Hl as [Hne Hl].
      rewrite (Hother l Hl). apply cols_named_setitem_ne. simpl in Hne. congruence.
    + intros l f [[= -> ->]|Hin]%elem_of_cons.
      * exists c, c'. split; [done|]. split; [done|].
        unfold getitem. rewrite (Hother l0 Hl0).
        fold (getitem (setitem df l0 c') l0). eapply getitem_setitem_eq, Hc.
      * destruct (Hfixed l f Hin) as (c1 & c1' & H1 & H2 & H3).
        exists c1, c1'. split; [|done].
        rewrite getitem_setitem_ne in H1; [done|].
        intros ->. apply Hl0. apply list_elem_of_fmap. now exists (l, f).
Qed.

Lemma int64_of_Ok v v' : int64_of v = Ok v' → ∃ z, v' = VInt z.
Proof.
  destruct v; simpl; repeat case_match; try discriminate; intros [= <-]; eauto.
Qed.

Lemma float64_of_Ok v v' : float64_of v = Ok v' → (∃ f, v' = VFloat f) ∨ v' = VNaN.
Proof.
  destruct v; simpl; repeat case_match; try discriminate; intros [= <-]; eauto.
Qed.

Lemma mapM_result_elem {A B : Type} (f : A → result B) (l : list A) (l' : list B) b :
  mapM_result f l = Ok l' → b ∈ l' → ∃ a, a ∈ l ∧ f a = Ok b.
Proof.
  revert l'; induction l as [|a l IH]; intros l' H Hb; simpl in H.
  - injection H as <-. now apply elem_of_nil in Hb.
  - apply bind_Ok in H as (b0 & Hb0 & H). apply bind_Ok in H as (bs & Hbs & H).
    injection H as <-. apply elem_of_cons in Hb as [->|Hb].
    + exists a. split; [apply list_elem_of_here|done].
    + destruct (IH _ Hbs Hb) as (a' & Ha' & Hf). exists a'.
      split; [now apply list_elem_of_further|done].
Qed.

(** What lines 92-100 return, for use below. *)
Lemma coerce_typed df out :
  coerce df = Ok out →
  columns out = columns df
  ∧ (∀ l, l ∉ type_fixes.*1 → cols_named l out = cols_named l df)
  ∧ ∀ l, l ∈ type_fixes.*1 →
      ∃ c c', getitem df l = Ok c ∧ getitem out l = Ok c'
              ∧ length c' = length c
              ∧ ∀ v, v ∈ c' → typed_cell l v.
Proof.
  rewrite coerce_apply_fixes. intros H.
  destruct (apply_fixes_inv _ _ _ NoDup_type_fixes H) as (Hcols & Hother & Hfixed).
  split; [done|]. split; [done|].
  intros l (lf & -> & Hin)%list_elem_of_fmap. destruct lf as [l f]. simpl.
  destruct (Hfixed l f Hin) as (c & c' & Hc & Hf & Hc').
  exists c, c'. split; [done|]. split; [done|].
  unfold type_fixes in Hin.
  repeat (apply elem_of_cons in Hin as [[= -> ->]|Hin];
          [split;
           [first [ eapply mapM_result_length, Hf
                  | unfold to_date in Hf;
                    apply bind_Ok in Hf as (c1 & H1 & [= <-]);
                    unfold dt_date; rewrite length_fmap;
                    eapply mapM_result_length, H1 ]
           |intros v Hv; unfold typed_cell; simpl]|]).
  - destruct (mapM_result_elem _ _ _ _ Hf Hv) as (a & _ & Ha).
    eapply to_datetime1_Ok, Ha.
  - unfold to_date in Hf. apply bind_Ok in Hf as (c1 & H1 & [= <-]).
    unfold dt_date in Hv. apply list_elem_of_fmap in Hv as (v1 & -> & Hv1).
    destruct (mapM_result_elem _ _ _ _ H1 Hv1) as (a & _ & Ha).
    apply to_datetime1_Ok in Ha as [[t ->]| ->]; eauto.
  - destruct (mapM_result_elem _ _ _ _ Hf Hv) as (a & _ & Ha).
    eapply int64_of_Ok, Ha.
  - destruct (mapM_result_elem _ _ _ _ Hf Hv) as (a & _ & Ha).
    eapply int64_of_Ok, Ha.
  - destruct (mapM_result_elem _ _ _ _ Hf Hv) as (a & _ & Ha).
    eapply int64_of_Ok, Ha.
  - destruct (mapM_result_elem _ _ _ _ Hf Hv) as (a & _ & Ha).
    eapply int64_of_Ok, Ha.
  - destruct (mapM_result_elem _ _ _ _ Hf Hv) as (a & _ & Ha).
    eapply float64_of_Ok, Ha.
  - destruct (mapM_result_elem _ _ _ _ Hf Hv) as (a & _ & Ha).
    eapply int64_of_Ok, Ha.
  - now apply elem_of_nil in Hin.
Qed.



(** ** When feature engineering returns *)

Lemma getitem_NoDup df l c :
  NoDup (columns df) → (l, c) ∈ df → getitem df l = Ok c.
Proof.
  intros Hnd Hin. unfold getitem.
  induction df as [|[l0 c0] df IH]; [now apply elem_of_nil in Hin|].
  unfold columns in Hnd. rewrite fmap_cons in Hnd.
  apply NoDup_cons in Hnd as [Hl0 Hnd]. simpl in Hl0.
  rewrite cols_named_cons. destruct (decide (l0 = l)) as [->|Hne].
  - rewrite (cols_named_nil l df Hl0).
    apply elem_of_cons in Hin as [[= ->]|Hin]; [done|].
    exfalso. eapply Hl0, elem_columns, Hin.
  - apply IH; [done|]. apply elem_of_cons in Hin as [[= -> ->]|Hin]; done.
Qed.

Lemma NoDup_columns_setitem df l c :
  NoDup (columns df) → NoDup (columns (setitem df l c)).
Proof.
  intros H. rewrite columns_setitem. case_bool_decide as E; [done|].
  apply NoDup_app. split; [done|]. split; [|apply NoDup_singleton].
  intros l' Hl' ->%list_elem_of_singleton. done.
Qed.

Lemma getitem_setitem_NoDup df l c :
  NoDup (columns df) → getitem (setitem df l c) l = Ok c.
Proof.
  intros H. apply getitem_NoDup; [now apply NoDup_columns_setitem|].
  destruct (setitem_holds df l c) as [Hin Hc].
  apply list_elem_of_fmap in Hin as ([l' c'] & -> & Hin). simpl in *.
  pose proof (Hc c' Hin) as Heq. subst c'. exact Hin.
Qed.

Lemma mapM_result_Ok {A B : Type} (f : A → result B) (l : list A) :
  (∀ a, a ∈ l → is_ok (f a) = true) → ∃ bs, mapM_result f l = Ok bs.
Proof.
  induction l as [|a l IH]; intros H; simpl; [eauto|].
  destruct (f a) as [b|e] eqn:E.
  - destruct IH as [bs ->]; [intros; apply H; now apply list_elem_of_further|].
    simpl. eauto.
  - specialize (H a (list_elem_of_here _ _)). rewrite E in H. discriminate.
Qed.

Lemma validate_Ok_inv df df' :
  validate df = Ok df' → ∀ r, r ∈ required_columns → r ∈ columns df.
Proof.
  unfold validate. destruct (forallb _ _) eqn:E; [|done]. intros _ r Hr.
  rewrite forallb_forall in E. apply list_elem_of_In, E in Hr.
  now apply bool_decide_eq_true in Hr.
Qed.

Lemma engineer_Ok df ts0 ts lv msg svc :
  NoDup (columns df) →
  getitem df "timestamp" = Ok ts0 → to_datetime ts0 = Ok ts →
  getitem df "log_level" = Ok lv → getitem df "message" = Ok msg →
  getitem df "service" = Ok svc →
  engineer df = Ok (engineered df ts lv msg svc).
Proof.
  intros Hnd Hts0 Hts Hlv Hmsg Hsvc. unfold engineer.
  rewrite Hts0. cbn [mbind result_bind]. rewrite Hts. cbn [mbind result_bind].
  rewrite (getitem_setitem_eq _ _ _ _ Hts0). cbn [mbind result_bind].
  rewrite getitem_setitem_ne, (getitem_setitem_eq _ _ _ _ Hts0) by done.
  cbn [mbind result_bind].
  rewrite !getitem_setitem_ne, Hlv by done. cbn [mbind result_bind].
  rewrite !getitem_setitem_ne, Hlv by done. cbn [mbind result_bind].
  rewrite !getitem_setitem_ne, Hmsg by done. cbn [mbind result_bind].
  rewrite !getitem_setitem_ne, Hsvc by done. cbn [mbind result_bind].
  rewrite getitem_setitem_NoDup by (repeat apply NoDup_columns_setitem; done).
  reflexivity.
Qed.


(** ** The round trip of the hand-off *)

Lemma mapM_result_fmap {A B : Type} (f : A → result B) (g : B → A) (l : list B) :
  (∀ b, b ∈ l → f (g b) = Ok b) → mapM_result f (g <$> l) = Ok l.
Proof.
  induction l as [|b l IH]; intros H; [done|].
  rewrite fmap_cons. cbn [mapM_result].
  rewrite (H b) by apply list_elem_of_here. cbn [mbind result_bind].
  rewrite IH by (intros; apply H; now apply list_elem_of_further). done.
Qed.

Lemma mapM_result_id {A : Type} (f : A → result A) (l : list A) :
  (∀ a, a ∈ l → f a = Ok a) → mapM_result f l = Ok l.
Proof.
  intros H. rewrite <- (list_fmap_id l) at 1. now apply mapM_result_fmap.
Qed.

(** A column of plain texts is read as the texts. *)
Lemma infer_column_plain (fields : list string) :
  (∀ s, s ∈ fields → plain_text s) → infer_column fields = VStr <$> fields.
Proof.
  intros H. destruct fields as [|s0 fields]; [done|].
  destruct (H s0 (list_elem_of_here _ _)) as (Hna & Hint & Hfl & Hb).
  unfold infer_column.
  rewrite (proj2 (forallb_false_ex _ _)).
  2:{ exists s0. split; [apply list_elem_of_here|].
      apply bool_decide_eq_false. rewrite <- eq_None_not_Some.
      now apply parse_int64_None. }
  rewrite (proj2 (forallb_false_ex _ _)).
  2:{ exists s0. split; [apply list_elem_of_here|]. rewrite Hna. simpl.
      apply bool_decide_eq_false. rewrite <- eq_None_not_Some.
      unfold parse_number. now rewrite (parse_int64_None _ Hint). }
  rewrite (proj2 (forallb_false_ex _ _)).
  2:{ exists s0. split; [apply list_elem_of_here|].
      apply bool_decide_eq_false. now rewrite <- eq_None_not_Some. }
  apply list_fmap_ext. intros i s Hs. apply list_elem_of_lookup_2 in Hs.
  now destruct (H s Hs) as (-> & _).
Qed.

(** A column of well-formed integers is read back as it is. *)
Lemma infer_column_ints c :
  (∀ v, v ∈ c → field_ok v ∧ ∃ z, v = VInt z) →
  infer_column (csv_field <$> c) = c.
Proof.
  intros H. unfold infer_column. rewrite forallb_true_ext.
  - rewrite <- list_fmap_compose. rewrite <- (list_fmap_id c) at 2.
    apply list_fmap_ext. intros i v Hv. apply list_elem_of_lookup_2 in Hv.
    destruct (H v Hv) as (Hok & z & ->). simpl. unfold csv_field. simpl.
    now rewrite parse_int64_repr.
  - intros s (v & -> & Hv)%list_elem_of_fmap.
    destruct (H v Hv) as (Hok & z & ->). unfold csv_field. simpl.
    rewrite parse_int64_repr by done. now apply bool_decide_eq_true_2.
Qed.

(** A column of well-formed floats with gaps is read back as it is. *)
Lemma infer_column_floats c :
  (∀ v, v ∈ c → field_ok v ∧ ((∃ f, v = VFloat f) ∨ v = VNaN)) →
  infer_column (csv_field <$> c) = c.
Proof.
  intros H. destruct c as [|v0 c]; [done|].
  assert (Hcell : ∀ v, v ∈ v0 :: c →
            parse_int64 (csv_field v) = None
            ∧ (if is_na (csv_field v) then VNaN
               else from_option VFloat VNaN (parse_number (csv_field v))) = v
            ∧ is_na (csv_field v)
              || bool_decide (is_Some (parse_number (csv_field v))) = true).
  { intros v Hv. destruct (H v Hv) as (Hok & [[f ->]| ->]); [|done].
    destruct Hok as (Hna & Hint & Hf). unfold csv_field. simpl.
    rewrite Hna. unfold parse_number. rewrite (parse_int64_None _ Hint), Hf.
    split; [done|]. split; [done|]. simpl.
    first [done | now apply bool_decide_eq_true_2]. }
  unfold infer_column.
  rewrite (proj2 (forallb_false_ex _ _)).
  2:{ exists (csv_field v0). split; [rewrite fmap_cons; apply list_elem_of_here|].
      apply bool_decide_eq_false. rewrite <- eq_None_not_Some.
      apply Hcell, list_elem_of_here. }
  rewrite forallb_true_ext.
  - rewrite <- list_fmap_compose. rewrite <- (list_fmap_id (v0 :: c)) at 2.
    apply list_fmap_ext. intros i v Hv. apply list_elem_of_lookup_2 in Hv.
    simpl. apply Hcell, Hv.
  - intros s (v & -> & Hv)%list_elem_of_fmap. now apply Hcell.
Qed.

Lemma astype_int64_ints c :
  (∀ v, v ∈ c → ∃ z, v = VInt z) → astype_int64 c = Ok c.
Proof.
  intros H. apply mapM_result_id. intros v Hv. now destruct (H v Hv) as [z ->].
Qed.

Lemma astype_float64_floats c :
  (∀ v, v ∈ c → (∃ f, v = VFloat f) ∨ v = VNaN) → astype_float64 c = Ok c.
Proof.
  intros H. apply mapM_result_id. intros v Hv.
  now destruct (H v Hv) as [[f ->]| ->].
Qed.

(** Two frames with the same distinct labels, one included in the other,
    are the same frame. *)
Lemma frame_eq df df' :
  columns df = columns df' → NoDup (columns df) →
  (∀ l c, (l, c) ∈ df → (l, c) ∈ df') → df = df'.
Proof.
  intros Hcols Hnd Hin. apply list_eq. intros j.
  assert (Hj : columns df !! j = columns df' !! j) by now rewrite Hcols.
  unfold columns in Hj. rewrite !list_lookup_fmap in Hj.
  destruct (df !! j) as [[l c]|] eqn:E; destruct (df' !! j) as [[l' c']|] eqn:E';
    simpl in Hj; try done.
  injection Hj as <-. f_equal. f_equal.
  pose proof (Hin l c (list_elem_of_lookup_2 _ _ _ E)) as Hc.
  apply list_elem_of_lookup_1 in Hc as [j' Hj'].
  assert (j' = j) as ->.
  { rewrite Hcols in Hnd. eapply NoDup_lookup; [exact Hnd| |].
    - unfold columns. rewrite list_lookup_fmap, Hj'. done.
    - unfold columns. rewrite list_lookup_fmap, E'. done. }
  rewrite E' in Hj'. now injection Hj'.
Qed.

(** The fixes return the frame [tgt] when each converts its column of
    [df] to the column of [tgt] and the other columns agree. *)
Lemma apply_fixes_to fixes df tgt :
  NoDup fixes.*1 → NoDup (columns df) → columns tgt = columns df →
  (∀ l f, (l, f) ∈ fixes →
          ∃ c c', (l, c) ∈ df ∧ (l, c') ∈ tgt ∧ f c = Ok c') →
  (∀ l c, l ∉ fixes.*1 → (l, c) ∈ df → (l, c) ∈ tgt) →
  apply_fixes fixes df = Ok tgt.
Proof.
  intros Hndf; revert df.
  induction fixes as [|[l0 f0] fixes IH]; intros df Hnd Hcols Hfix Hother.
  - simpl. f_equal. apply frame_eq; [done..|].
    intros l c. apply Hother, not_elem_of_nil.
  - apply NoDup_cons in Hndf as [Hl0 Hndf].
    destruct (Hfix l0 f0 (list_elem_of_here _ _)) as (c & c' & Hc & Hc' & Hf).
    cbn [apply_fixes]. unfold fix_column.
    rewrite (getitem_NoDup _ _ _ Hnd Hc). cbn [mbind result_bind].
    rewrite Hf. cbn [mbind result_bind].
    assert (Hin0 : l0 ∈ columns df) by (eapply elem_columns, Hc).
    apply IH; [done| | | |].
    + now apply NoDup_columns_setitem.
    + now rewrite columns_setitem, bool_decide_eq_true_2.
    + intros l f Hin.
      destruct (Hfix l f (list_elem_of_further _ _ _ Hin)) as (c1 & c1' & H1 & H1' & Hf1).
      exists c1, c1'. split; [|done]. apply setitem_other; [|done].
      intros ->. apply Hl0. apply list_elem_of_fmap. now exists (l, f).
    + intros l c1 Hl Hc1. destruct (decide (l0 = l)) as [<-|Hne].
      * apply setitem_holds in Hc1. now subst.
      * apply Hother; [|now apply (setitem_other df l0 l c' c1) in Hc1].
        rewrite fmap_cons. apply not_elem_of_cons. split; [simpl; congruence|done].
Qed.

Lemma to_datetime_instants c :
  (∀ v, v ∈ c → field_ok v ∧ ((∃ t, v = VTime t) ∨ v = VNaT)) →
  infer_column (csv_field <$> c) = VStr <$> (csv_field <$> c)
  ∧ to_datetime (VStr <$> (csv_field <$> c)) = Ok c.
Proof.
  intros H.
  assert (Hc : ∀ v, v ∈ c → ∃ t, v = VTime t ∧ plain_text (format_datetime t)
                                 ∧ parse_datetime (format_datetime t) = Some t).
  { intros v Hv. destruct (H v Hv) as (Hok & [[t ->]| ->]); [|done].
    destruct Hok. eauto. }
  split.
  - apply infer_column_plain. intros s (v & -> & Hv)%list_elem_of_fmap.
    now destruct (Hc v Hv) as (t & -> & Hp & _).
  - rewrite <- list_fmap_compose. apply mapM_result_fmap. intros v Hv.
    destruct (Hc v Hv) as (t & -> & _ & Hp). simpl. unfold csv_field. simpl.
    now rewrite Hp.
Qed.

Lemma to_date_dates c :
  (∀ v, v ∈ c → field_ok v ∧ ((∃ d, v = VDate d) ∨ v = VNaT)) →
  infer_column (csv_field <$> c) = VStr <$> (csv_field <$> c)
  ∧ to_date (VStr <$> (csv_field <$> c)) = Ok c.
Proof.
  intros H.
  assert (Hc : ∀ v, v ∈ c → ∃ d t, v = VDate d ∧ plain_text (format_date d)
                                   ∧ parse_datetime (format_date d) = Some t
                                   ∧ ts_date t = d).
  { intros v Hv. destruct (H v Hv) as (Hok & [[d ->]| ->]); [|done].
    destruct Hok as (Hp & t & Ht & Hd). eauto 10. }
  split.
  - apply infer_column_plain. intros s (v & -> & Hv)%list_elem_of_fmap.
    now destruct (Hc v Hv) as (d & t & -> & Hp & _).
  - unfold to_date. clear H.
    assert (Hdt : ∃ c1, to_datetime (VStr <$> (csv_field <$> c)) = Ok c1
                        ∧ dt_date c1 = c).
    { induction c as [|v c IH]; [now exists []|].
      destruct (Hc v (list_elem_of_here _ _)) as (d & t & -> & _ & Ht & Hd).
      destruct IH as (c1 & Hc1 & Hd1).
      { intros v Hv. apply Hc. now apply list_elem_of_further. }
      exists (VTime t :: c1). split.
      - rewrite !fmap_cons. unfold to_datetime in *. cbn [mapM_result].
        change (csv_field (VDate d)) with (format_date d).
        cbn [to_datetime1]. rewrite Ht. cbn [mbind result_bind].
        now rewrite Hc1.
      - unfold dt_date in *. rewrite fmap_cons. now rewrite Hd1, Hd. }
    destruct Hdt as (c1 & -> & <-). done.
Qed.

Lemma typed_cell_int l v :
  l ∈ ["hour_of_day"; "log_level_encoded"; "message_length"; "is_error";
       "user_id"] →
  typed_cell l v → ∃ z, v = VInt z.
Proof.
  intros Hl. unfold typed_cell.
  repeat (apply elem_of_cons in Hl as [->|Hl]; [now simpl|]).
  now apply elem_of_nil in Hl.
Qed.

Lemma columns_read_back df :
  columns (prod_map id (λ c, infer_column (csv_field <$> c)) <$> df) = columns df.
Proof.
  unfold columns. rewrite <- list_fmap_compose. apply list_fmap_ext.
  now intros i [l c] _.
Qed.


(** ** Fixing the types twice *)

Lemma setitem_id df l c : getitem df l = Ok c → setitem df l c = df.
Proof.
  intros H. unfold setitem.
  rewrite bool_decide_eq_true_2 by (eapply elem_columns, getitem_elem, H).
  rewrite <- (list_fmap_id df) at 2. apply list_fmap_ext.
  intros i [l' c'] Hi. simpl. case_bool_decide as E; [|done]. simpl in E. subst l'.
  f_equal. symmetry. eapply getitem_unique; [exact H|].
  eapply list_elem_of_lookup_2, Hi.
Qed.

Lemma typed_column_fixed l f c :
  (l, f) ∈ type_fixes → (∀ v, v ∈ c → typed_cell l v) → f c = Ok c.
Proof.
  intros Hin Hc. unfold type_fixes in Hin.
  repeat (apply elem_of_cons in Hin as [[= -> ->]|Hin];
          [first [ apply astype_int64_ints; intros v Hv; exact (Hc v Hv)
                 | apply astype_float64_floats; intros v Hv; exact (Hc v Hv)
                 | idtac ]|]);
    [| |now apply elem_of_nil in Hin].
  - apply mapM_result_id. intros v Hv.
    now destruct (Hc v Hv) as [[t ->]| ->].
  - unfold to_date.
    assert (Hdt : ∃ c1, to_datetime c = Ok c1 ∧ dt_date c1 = c).
    { induction c as [|v c IH]; [now exists []|].
      destruct IH as (c1 & Hc1 & Hd1).
      { intros v' Hv'. apply Hc. now apply list_elem_of_further. }
      unfold to_datetime in *. cbn [mapM_result].
      destruct (Hc v (list_elem_of_here _ _)) as [[d ->]| ->];
        cbn [to_datetime1 mbind result_bind]; rewrite Hc1;
        cbn [mbind result_bind]; eexists; (split; [reflexivity|]);
        unfold dt_date in *; rewrite fmap_cons; now rewrite Hd1. }
    destruct Hdt as (c1 & -> & Hd). cbn [mbind result_bind]. now rewrite Hd.
Qed.

(** X11.  Lines 92-100.  The type fixes are idempotent: a frame they
    returned passes through them unchanged, so fixing the types of an
    already typed frame neither raises nor alters a cell. *)
Theorem coerce_idempotent df out : coerce df = Ok out → coerce out = Ok out.
Proof.
  intros H. destruct (coerce_typed _ _ H) as (_ & _ & Htyped).
  rewrite coerce_apply_fixes.
  assert (Hgen : ∀ fixes, (∀ lf, lf ∈ fixes → lf ∈ type_fixes) →
                          apply_fixes fixes out = Ok out).
  { induction fixes as [|[l f] fixes IH]; intros Hsub; [done|].
    cbn [apply_fixes]. unfold fix_column.
    destruct (Htyped l) as (c & c' & _ & Hc' & _ & Hty).
    { apply list_elem_of_fmap. exists (l, f). split; [done|].
      apply Hsub, list_elem_of_here. }
    rewrite Hc'. cbn [mbind result_bind].
    rewrite (typed_column_fixed l f c') by (auto using list_elem_of_here).
    cbn [mbind result_bind]. rewrite (setitem_id _ _ _ Hc').
    apply IH. intros lf Hlf. apply Hsub. now apply list_elem_of_further. }
  now apply Hgen.
Qed.

End Properties.

(** * The theorems at the specification's scenario *)

Lemma read_scenario : read_csv Sample.scenario = Ok Sample.raw.
Proof. reflexivity. Qed.

Lemma engineer_scenario : engineer Sample.batch = Ok Sample.enriched.
Proof. reflexivity. Qed.


Lemma missing_column_aborts_run_witness :
  (let w := Sample.world0 Sample.scenario_no_user in
   run_dag w
   = (w, Failed "transform_logs_feature_engineering"
           (MissingRequiredColumns ["timestamp"; "log_level"; "service"; "message"]))
   ∧ bq_loads (run_dag w).1 = [])
  ∧ validate Sample.batch = Ok Sample.batch.
Proof.
  split.
  - intros w.
    destruct (missing_column_aborts_run w
                [("Timestamp", [VStr "2024-01-15 10:30:00"]);
                 (" Log_Level ", [VStr "INFO"]); ("service", [VStr "svc-a"]);
                 ("message", [VStr "hello"])] eq_refl) as [Hmiss _].
    destruct Hmiss as (_ & _ & Hrun & Hloads).
    + exists "user_id". split; [set_solver|].
      apply (bool_decide_eq_false_1 _). reflexivity.
    + split; [exact Hrun | exact Hloads].
  - destruct (missing_column_aborts_run (Sample.world0 Sample.scenario)
                Sample.raw read_scenario) as [_ Hok].
    apply Hok. intros r Hr. apply (bool_decide_eq_true_1 _).
    unfold required_columns in Hr.
    repeat (apply elem_of_cons in Hr as [->|Hr]); try reflexivity.
    now apply elem_of_nil in Hr.
Defined.

Lemma is_error_iff_ERROR_witness :
  engineer Sample.batch = Ok Sample.enriched
  ∧ ∃ lv ie,
      getitem Sample.batch "log_level" = Ok lv
      ∧ getitem Sample.enriched "is_error" = Ok ie
      ∧ length ie = length lv
      ∧ ∀ i v, lv !! i = Some v →
          ∃ b, ie !! i = Some (VInt b) ∧ (b = 0 ∨ b = 1)
               ∧ (b = 1 ↔ v = VStr "ERROR").
Proof.
  split; [reflexivity|].
  apply (is_error_iff_ERROR Sample.batch Sample.enriched). reflexivity.
Defined.

Lemma log_level_encoded_mapping_witness :
  engineer Sample.batch = Ok Sample.enriched
  ∧ ∃ lv enc,
      getitem Sample.batch "log_level" = Ok lv
      ∧ "log_level_encoded" ∈ columns Sample.enriched
      ∧ (∀ c', ("log_level_encoded", c') ∈ Sample.enriched → c' = enc)
      ∧ length enc = length lv
      ∧ ∀ i v, lv !! i = Some v →
          (v = VStr "INFO" → holds_int (enc !! i) 0)
          ∧ (v = VStr "WARN" → holds_int (enc !! i) 1)
          ∧ (v = VStr "ERROR" → holds_int (enc !! i) 2)
          ∧ (v ≠ VStr "INFO" → v ≠ VStr "WARN" → v ≠ VStr "ERROR" →
             enc !! i = Some VNaN).
Proof.
  split; [reflexivity|].
  apply (log_level_encoded_mapping Sample.batch Sample.enriched). reflexivity.
Defined.

Lemma read_gap : read_csv Sample.gap = Ok Sample.gap_raw.
Proof. reflexivity. Qed.

(** C1 as stated fails on a batch with an empty [service] field: the row's
    rate is missing, not the mean over the rows sharing its [service]. *)
Lemma service_error_rate_missing_service :
  transform_logs (Sample.world0 Sample.gap) = Ok (to_csv Sample.gap_enriched)
  ∧ getitem (normalize Sample.gap_raw) "service" = Ok [VNaN; VStr "svc-a"]
  ∧ getitem Sample.gap_enriched "is_error" = Ok [VInt 1; VInt 0]
  ∧ getitem Sample.gap_enriched "service_error_rate" = Ok [VNaN; VFloat 0]
  ∧ ¬ rate_is_group_mean [VNaN; VStr "svc-a"] [VInt 1; VInt 0] [VNaN; VFloat 0].
Proof.
  repeat split; try reflexivity.
  intros H. specialize (H 0%nat VNaN eq_refl). discriminate H.
Qed.

Lemma service_error_rate_group_mean_witness :
  engineer Sample.batch = Ok Sample.enriched
  ∧ ∃ svc ie rate,
      getitem Sample.batch "service" = Ok svc
      ∧ getitem Sample.enriched "is_error" = Ok ie
      ∧ "service_error_rate" ∈ columns Sample.enriched
      ∧ (∀ c', ("service_error_rate", c') ∈ Sample.enriched → c' = rate)
      ∧ rate = map_series (groupby_mean svc ie) svc
      ∧ length rate = length svc
      ∧ (∀ i k, svc !! i = Some k → isna k = false →
           rate !! i = Some (VFloat (mean (group_values svc ie k))))
      ∧ (∀ i k, svc !! i = Some k → isna k = true → rate !! i = Some VNaN)
      ∧ (∀ i j, svc !! i = svc !! j → rate !! i = rate !! j).
Proof.
  split; [reflexivity|].
  apply (service_error_rate_group_mean Sample.batch Sample.enriched).
  reflexivity.
Defined.

(** The scenario's derived columns: rates 0.5, 0.5 and 1.0 (in units of
    [10^-6]), lengths 5, 4, 3 and codes 0, 2, 2. *)
Lemma scenario_columns :
  getitem Sample.enriched "service_error_rate"
  = Ok [VFloat 500000; VFloat 500000; VFloat 1000000]
  ∧ getitem Sample.enriched "message_length" = Ok [VInt 5; VInt 4; VInt 3]
  ∧ getitem Sample.enriched "log_level_encoded" = Ok [VInt 0; VInt 2; VInt 2].
Proof. repeat split; reflexivity. Qed.

Lemma transform_debug :
  transform_logs (Sample.world0 Sample.debug) = Ok Sample.debug_handoff.
Proof. reflexivity. Qed.

Lemma read_debug_handoff : read_csv Sample.debug_handoff = Ok Sample.debug_read.
Proof. reflexivity. Qed.

Lemma uncoercible_debug : uncoercible Sample.debug_read.
Proof.
  exists "log_level_encoded", [@VFloat Sample.fixed_float 0; VNaN], VNaN, int64_of.
  split; [unfold Sample.debug_read; in_list|].
  split; [in_list|]. split; reflexivity.
Qed.




Lemma rectangular_batch : rectangular Sample.batch 3.
Proof. apply rectangular_forallb. reflexivity. Qed.


Lemma read_debug : read_csv Sample.debug = Ok Sample.debug_raw.
Proof. reflexivity. Qed.

Lemma unmapped_level_fails_run_witness :
  let w := Sample.world0 Sample.debug in
  (read_csv (gcs_object w) = Ok Sample.debug_raw
   ∧ getitem (normalize Sample.debug_raw) "log_level"
     = Ok [VStr "INFO"; VStr "DEBUG"]
   ∧ VStr "DEBUG" ≠ VStr "INFO" ∧ VStr "DEBUG" ≠ VStr "WARN"
   ∧ VStr "DEBUG" ≠ VStr "ERROR")
  ∧ (∃ task e, (run_dag w).2 = Failed task e)
  ∧ bq_loads (run_dag w).1 = bq_loads w
  ∧ ∀ t, transform_logs w = Ok t →
      ∃ df e,
        read_csv t = Ok df
        ∧ (∀ c, ("log_level_encoded", c) ∈ df →
             c !! 1%nat = Some VNaN ∧ is_ok (astype_int64 c) = false)
        ∧ coerce df = Raise e
        ∧ run_dag w = (World (gcs_object w) (Some t) (bq_loads w),
                       Failed "load_to_bigquery" e).
Proof.
  intros w. split.
  - repeat split; try reflexivity; discriminate.
  - apply (unmapped_level_fails_run w Sample.debug_raw
             [VStr "INFO"; VStr "DEBUG"] 1%nat (VStr "DEBUG"));
      try reflexivity; discriminate.
Defined.

(** The run on the [DEBUG] batch, evaluated. *)
Lemma run_debug :
  run_dag (Sample.world0 Sample.debug)
  = (World Sample.debug (Some Sample.debug_handoff) [],
     Failed "load_to_bigquery" IntCastingNaNError).
Proof. reflexivity. Qed.

(** * The further properties at the scenario *)

Lemma enriched_expected : Sample.enriched = Sample.expected.
Proof. reflexivity. Qed.

Lemma event_date_and_hour_of_timestamp_witness :
  engineer Sample.batch = Ok Sample.enriched
  ∧ ∃ ts0 ts,
      getitem Sample.batch "timestamp" = Ok ts0 ∧ to_datetime ts0 = Ok ts
      ∧ getitem Sample.enriched "timestamp" = Ok ts
      ∧ (∀ c', ("event_date", c') ∈ Sample.enriched → c' = dt_date ts)
      ∧ (∀ c', ("hour_of_day", c') ∈ Sample.enriched → c' = dt_hour ts)
      ∧ ∀ i v, ts !! i = Some v →
          (∃ t, v = VTime t ∧ dt_date ts !! i = Some (VDate (ts_date t))
                ∧ holds_int (dt_hour ts !! i) (ts_hour t))
          ∨ (v = VNaT ∧ dt_date ts !! i = Some VNaT
             ∧ dt_hour ts !! i = Some VNaN).
Proof.
  split; [reflexivity|].
  apply (event_date_and_hour_of_timestamp Sample.batch Sample.enriched).
  reflexivity.
Defined.


Lemma read_bad_time : read_csv Sample.bad_time = Ok Sample.bad_time_raw.
Proof. reflexivity. Qed.

Lemma bad_timestamp_aborts_run_witness :
  let w := Sample.world0 Sample.bad_time in
  (read_csv (gcs_object w) = Ok Sample.bad_time_raw
   ∧ getitem (normalize Sample.bad_time_raw) "timestamp"
     = Ok [VStr "2024-01-15 10:30:00"; VStr "yesterday"]
   ∧ is_ok (to_datetime1 (VStr "yesterday")) = false)
  ∧ ∃ e, transform_logs w = Raise e
         ∧ run_dag w = (w, Failed "transform_logs_feature_engineering" e)
         ∧ bq_loads (run_dag w).1 = bq_loads w
         ∧ (validate (normalize Sample.bad_time_raw)
            = Ok (normalize Sample.bad_time_raw) →
            to_datetime [VStr "2024-01-15 10:30:00"; VStr "yesterday"] = Raise e).
Proof.
  intros w. split; [repeat split; reflexivity|].
  apply (bad_timestamp_aborts_run w Sample.bad_time_raw
           [VStr "2024-01-15 10:30:00"; VStr "yesterday"] (VStr "yesterday")).
  - reflexivity.
  - reflexivity.
  - in_list.
  - reflexivity.
Defined.

Lemma service_error_rate_is_errors_over_rows_witness :
  (engineer Sample.batch = Ok Sample.enriched ∧ rectangular Sample.batch 3)
  ∧ ∃ svc lv rate,
      getitem Sample.batch "service" = Ok svc
      ∧ getitem Sample.batch "log_level" = Ok lv
      ∧ (∀ c', ("service_error_rate", c') ∈ Sample.enriched → c' = rate)
      ∧ ∀ i k, svc !! i = Some k → isna k = false →
          let rows := filter (λ kv : value * value, kv.1 = k) (zip svc lv) in
          let errors := filter (λ kv : value * value, kv.2 = VStr "ERROR") rows in
          (0 < length rows)%nat ∧ (length errors ≤ length rows)%nat
          ∧ rate !! i
            = Some (VFloat (float_div (float_of_Z (Z.of_nat (length errors)))
                                      (float_of_Z (Z.of_nat (length rows))))).
Proof.
  split; [split; [reflexivity|exact rectangular_batch]|].
  apply (service_error_rate_is_errors_over_rows Sample.batch Sample.enriched 3).
  - reflexivity.
  - exact rectangular_batch.
Defined.

Lemma transform_scenario :
  transform_logs (Sample.world0 Sample.scenario) = Ok (to_csv Sample.enriched).
Proof. reflexivity. Qed.

Lemma transform_logs_keeps_records_witness :
  let w := Sample.world0 Sample.scenario in
  let t := to_csv Sample.enriched in
  transform_logs w = Ok t
  ∧ ∃ raw,
      read_csv (gcs_object w) = Ok raw
      ∧ header t
        = columns (normalize raw)
          ++ filter (λ l, l ∉ columns (normalize raw)) derived_columns
      ∧ length (records t) = length (records (gcs_object w))
      ∧ ∀ r, r ∈ records t → length r = length (header t).
Proof.
  intros w t. split; [reflexivity|].
  apply (transform_logs_keeps_records w t). reflexivity.
Defined.

Lemma coerce_read_back : coerce Sample.read_back = Ok Sample.expected.
Proof. reflexivity. Qed.




Lemma well_formed_expected : well_formed Sample.expected.
Proof.
  split; [apply (bool_decide_eq_true_1 _); reflexivity|].
  split; [apply (bool_decide_eq_false_1 _); reflexivity|].
  intros l c v Hc Hv. unfold Sample.expected in Hc.
  repeat (apply elem_of_cons in Hc as [[= -> ->]|Hc];
          [repeat (apply elem_of_cons in Hv as [->|Hv];
                   [split;
                    [first [ exact I
                           | repeat split; reflexivity
                           | split; [repeat split; reflexivity
                                    |eexists; split; reflexivity]
                           | cbn; lia ]
                    |intros Hl;
                     first [ solve [unfold typed_cell; simpl; eauto]
                           | exfalso; revert Hl;
                             apply (bool_decide_eq_false_1 _); reflexivity ]]|]);
           now apply elem_of_nil in Hv|]).
  now apply elem_of_nil in Hc.
Qed.


Lemma coerce_idempotent_witness :
  coerce Sample.read_back = Ok Sample.expected
  ∧ coerce Sample.expected = Ok Sample.expected.
Proof.
  split; [reflexivity|].
  apply (coerce_idempotent Sample.read_back Sample.expected). reflexivity.
Defined.
